(** * Picture Repair App: the image intake-and-relay pipeline of [server/server.js]

    A shallow embedding of the Express server of the repository: the upload
    middleware configuration, the three pipeline helpers ([imageToBase64],
    [callOpenRouterAPI], [processImageWithAI]), the [POST /api/repair-image]
    handler, the [GET /api/processed/:filename] handler and the error
    middleware.  Asynchronous functions become computations in a state and
    exception monad over the two directories of the server; everything that
    the server does not decide itself (generated identifiers, the clock, the
    upstream service, faults of the file system) is read from an explicit
    environment.  The middleware in front of the routes (security headers,
    CORS, rate limiting, body parsers) is not part of the model, and a
    request carries at most one file part, in the field [image].  Paths are
    POSIX paths. *)

From stdpp Require Import gmap strings list pretty.
From Stdlib Require Import Ascii ZArith QArith Qround Qminmax Lia Lqa.

Set Warnings "-register-all".

Open Scope string_scope.
Open Scope Z_scope.

(** ** JavaScript values and errors *)

Module JS.

(** The values that flow through the JSON bodies of the server. *)
Inductive value :=
| Undefined
| Null
| Bool (b : bool)
| Num (n : Z)
| Str (s : string)
| Arr (items : list value)
| Obj (fields : list (string * value)).

Inductive error_class := ErrorC | TypeErrorC | SyntaxErrorC | SystemErrorC | MulterErrorC.

(** An exception object: [error instanceof multer.MulterError] is
    [class error = MulterErrorC], [error.code], [error.message] and
    [error.stack] are the fields. *)
Record error := mkError {
  class : error_class;
  code : option string;
  message : string;
  stack : string
}.

Definition class_name (c : error_class) : string :=
  match c with
  | ErrorC | SystemErrorC => "Error"
  | TypeErrorC => "TypeError"
  | SyntaxErrorC => "SyntaxError"
  | MulterErrorC => "MulterError"
  end.

(** [new C(msg)]: the stack starts with the header line [C: msg]; the
    frames below it are not modelled. *)
Definition new_of (c : error_class) (cd : option string) (msg : string) : error :=
  {| class := c; code := cd; message := msg;
     stack := class_name c ++ ": " ++ msg |}.

(** [error.code === cd] *)
Definition code_is (e : error) (cd : string) : bool :=
  match code e with
  | Some c => String.eqb c cd
  | None => false
  end.

(** [new Error(msg)] *)
Definition new_Error (msg : string) : error := new_of ErrorC None msg.

Definition new_TypeError (msg : string) : error := new_of TypeErrorC None msg.

(** The result of evaluating an expression: a value or a thrown error. *)
Inductive outcome (A : Type) :=
| Return (a : A)
| Throw (e : error).
Arguments Return {A} a.
Arguments Throw {A} e.

(** Own property lookup in an object; the last binding of a key wins. *)
Fixpoint find_property (fields : list (string * value)) (k : string) : option value :=
  match fields with
  | [] => None
  | (k', v) :: rest =>
      match find_property rest k with
      | Some later => Some later
      | None => if String.eqb k' k then Some v else None
      end
  end.

(** A property that is not there reads as [undefined]. *)
Definition own_property (fields : list (string * value)) (k : string) : value :=
  default Undefined (find_property fields k).

Definition cannot_read (what k : string) : error :=
  new_TypeError ("Cannot read properties of " ++ what ++ " (reading '" ++ k ++ "')").

(** [v.k] for an identifier [k]. *)
Definition get_prop (v : value) (k : string) : outcome value :=
  match v with
  | Undefined => Throw (cannot_read "undefined" k)
  | Null => Throw (cannot_read "null" k)
  | Obj fields => Return (own_property fields k)
  | Arr items =>
      Return (if String.eqb k "length" then Num (Z.of_nat (List.length items)) else Undefined)
  | Str s =>
      Return (if String.eqb k "length" then Num (Z.of_nat (String.length s)) else Undefined)
  | Bool _ | Num _ => Return Undefined
  end.

(** [v[i]] for a non-negative integer literal [i]. *)
Definition get_index (v : value) (i : nat) : outcome value :=
  match v with
  | Undefined => Throw (cannot_read "undefined" (pretty i))
  | Null => Throw (cannot_read "null" (pretty i))
  | Obj fields => Return (own_property fields (pretty i))
  | Arr items => Return (nth i items Undefined)
  | Str s =>
      Return (match String.get i s with
              | Some c => Str (String c EmptyString)
              | None => Undefined
              end)
  | Bool _ | Num _ => Return Undefined
  end.


(** The keys of an object literal, in order. *)
Definition keys (v : value) : list string :=
  match v with
  | Obj fields => fst <$> fields
  | _ => []
  end.

End JS.

Export JS.

(** ** The image library

    [sharp] is an external dependency of the server.  Its pipeline objects
    are modelled as a list of operations applied to the decoded picture;
    the geometry of [resize] follows the library's shrink-factor
    computation, in exact rational arithmetic where the library uses
    double precision. *)

Module Sharp.

Inductive format := JPEG | PNG | GIF | WEBP.

(** Enhancement passes that leave the geometry alone. *)
Inductive edit :=
| Sharpened
| Modulated (brightness saturation : Q) (hue : Z).

(** A decodable picture: what it shows ([scene], kept abstract), its
    geometry, its encoding, the enhancement passes applied to it, and how
    many lossy encodes its pixels went through ([generations]): encoding
    as JPEG loses detail each time, also at the quality the picture
    already has. *)
Record image := mkImage {
  scene : N;
  width : positive;
  height : positive;
  encoding : format;
  quality : option N;
  edits : list edit;
  generations : nat
}.

(** The bytes of a file either decode to a picture or they do not. *)
Inductive content :=
| Img (i : image)
| Raw (data : string).

(** The [fit] strategies of [resize] that keep the whole picture. *)
Inductive canvas := Inside | Outside | Fill.

Record resize_options := {
  fit : canvas;
  withoutEnlargement : bool
}.

Inductive operation :=
| resize (w h : positive) (o : resize_options)
| sharpen
| modulate (brightness saturation : Q) (hue : Z)
| jpeg (q : N).

(** The horizontal and vertical shrink factors for source [w] x [h] and
    target [tw] x [th]. *)
Definition resolve_shrink (w h tw th : positive) (o : resize_options) : Q * Q :=
  let hshrink := Z.pos w # tw in
  let vshrink := Z.pos h # th in
  let '(hshrink, vshrink) :=
    match fit o with
    | Outside => let s := Qmin hshrink vshrink in (s, s)
    | Inside => let s := Qmax hshrink vshrink in (s, s)
    | Fill => (hshrink, vshrink)
    end in
  let '(hshrink, vshrink) :=
    if withoutEnlargement o
    then (Qmax 1 hshrink, Qmax 1 vshrink)
    else (hshrink, vshrink) in
  (* never shrink an axis to zero *)
  (Qmin hshrink (inject_Z (Z.pos w)), Qmin vshrink (inject_Z (Z.pos h))).

(** Round to the nearest integer, halves up. *)
Definition round (x : Q) : Z := Qfloor (x + (1 # 2)).

Definition resized (w h tw th : positive) (o : resize_options) : positive * positive :=
  let '(hshrink, vshrink) := resolve_shrink w h tw th o in
  (Z.to_pos (round (inject_Z (Z.pos w) / hshrink)),
   Z.to_pos (round (inject_Z (Z.pos h) / vshrink))).

Definition apply (op : operation) (i : image) : image :=
  match op with
  | resize tw th o =>
      let '(w', h') := resized (width i) (height i) tw th o in
      {| scene := scene i; width := w'; height := h';
         encoding := encoding i; quality := quality i; edits := edits i;
         generations := generations i |}
  | sharpen =>
      {| scene := scene i; width := width i; height := height i;
         encoding := encoding i; quality := quality i;
         edits := edits i ++ [Sharpened]; generations := generations i |}
  | modulate b s h =>
      {| scene := scene i; width := width i; height := height i;
         encoding := encoding i; quality := quality i;
         edits := edits i ++ [Modulated b s h]; generations := generations i |}
  | jpeg q =>
      {| scene := scene i; width := width i; height := height i;
         encoding := JPEG; quality := Some q; edits := edits i;
         generations := S (generations i) |}
  end.

(** The operations of a pipeline, in the order they were chained. *)
Definition run (ops : list operation) (i : image) : image :=
  foldl (fun acc op => apply op acc) i ops.

(** [width i <= w] and [height i <= h]. *)
Definition fits_within (w h : positive) (i : image) : Prop :=
  (width i <= w)%positive /\ (height i <= h)%positive.

End Sharp.

Export Sharp.

(** ** Paths

    A path is the list of its segments from the root.  [join] is
    [path.join] of Node for a base that is normalized already. *)

Module Path.

(** [s.includes(c)] for one character. *)
Fixpoint mentions (c : ascii) (s : string) : bool :=
  match s with
  | EmptyString => false
  | String c' rest => Ascii.eqb c' c || mentions c rest
  end.

(** A name that is one segment of a path: no separator and no NUL. *)
Definition plain (s : string) : bool :=
  negb (mentions "/"%char s) && negb (mentions Ascii.zero s).

(** [s.split('/')] *)
Fixpoint split (s : string) : list string :=
  match s with
  | EmptyString => [EmptyString]
  | String c rest =>
      if Ascii.eqb c "/"%char then EmptyString :: split rest
      else match split rest with
           | seg :: segs => String c seg :: segs
           | [] => [String c EmptyString]
           end
  end.

(** One more segment on a normalized path: an empty segment and [.] stay
    where they are, [..] goes up, and above the root there is the root. *)
Definition enter (path : list string) (seg : string) : list string :=
  if String.eqb seg "" || String.eqb seg "." then path
  else if String.eqb seg ".." then removelast path
  else (path ++ [seg])%list.

Definition join (base : list string) (rel : string) : list string :=
  foldl enter base (split rel).

(** [s.endsWith('/')]: [path.join] keeps a trailing separator. *)
Fixpoint trailing (s : string) : bool :=
  match s with
  | EmptyString => false
  | String c EmptyString => Ascii.eqb c "/"%char
  | String _ rest => trailing rest
  end.

(** A hidden segment: a leading dot in front of something. *)
Definition hidden (seg : string) : bool :=
  match seg with
  | String c (String _ _) => Ascii.eqb c "."%char
  | _ => false
  end.

(** [path] without [base] in front of it, if [base] is in front of it. *)
Fixpoint strip (base path : list string) : option (list string) :=
  match base, path with
  | [], _ => Some path
  | b :: base', seg :: path' => if String.eqb b seg then strip base' path' else None
  | _ :: _, [] => None
  end.

(** [path] from where it leaves [base]. *)
Fixpoint beyond (base path : list string) : list string :=
  match base, path with
  | b :: base', seg :: path' => if String.eqb b seg then beyond base' path' else path
  | _, _ => path
  end.

Fixpoint show (path : list string) : string :=
  match path with
  | [] => ""
  | seg :: rest => "/" ++ seg ++ show rest
  end.

End Path.

(** ** The server's world: its directories and a log of effects *)

(** [uploadsDir] and [processedDir] of the server. *)
Inductive dir := uploadsDir | processedDir.

(** [path.join(d, name)] *)
Definition filepath : Type := dir * string.

(** A path as it appears in messages, relative to the server directory. *)
Definition show_path (p : filepath) : string :=
  match p.1 with
  | uploadsDir => "uploads/"
  | processedDir => "processed/"
  end ++ p.2.

Inductive event :=
| Stored (p : filepath)               (* the upload middleware wrote the upload *)
| SharpInput (p : filepath)           (* an image pipeline opened its input *)
| SharpOutput (p : filepath)          (* an image pipeline wrote its output file *)
| Fetched (url : string)              (* one request to the upstream service *)
| Unlinked (p : filepath) (ok : bool) (* one call of fs.unlink and whether it removed the file *).

(** What a path of the file system leads to. *)
Inductive node :=
| regular (c : content)
| directory.

(** The two directories of the server hold regular files only.  [dirname]
    is [__dirname], the directory of [server.js]; [host] is what the disk
    holds outside of the two directories, by path from the root.  The
    server writes nowhere else, so [host] never changes. *)
Record world := mkWorld {
  uploads : gmap string content;
  processed : gmap string content;
  trace : list event;            (* newest event first *)
  uuid_calls : nat;
  unlink_calls : nat;
  dirname : list string;
  host : list string → option node
}.

Definition files (d : dir) (w : world) : gmap string content :=
  match d with
  | uploadsDir => uploads w
  | processedDir => processed w
  end.

Definition set_files (d : dir) (f : gmap string content → gmap string content) (w : world) : world :=
  match d with
  | uploadsDir =>
      {| uploads := f (uploads w); processed := processed w; trace := trace w;
         uuid_calls := uuid_calls w; unlink_calls := unlink_calls w;
         dirname := dirname w; host := host w |}
  | processedDir =>
      {| uploads := uploads w; processed := f (processed w); trace := trace w;
         uuid_calls := uuid_calls w; unlink_calls := unlink_calls w;
         dirname := dirname w; host := host w |}
  end.

Definition log (ev : event) (w : world) : world :=
  {| uploads := uploads w; processed := processed w; trace := ev :: trace w;
     uuid_calls := uuid_calls w; unlink_calls := unlink_calls w;
     dirname := dirname w; host := host w |}.

(** [path.join(__dirname, 'uploads')] and [path.join(__dirname, 'processed')] *)
Definition dir_path (w : world) (d : dir) : list string :=
  (dirname w ++ [ match d with uploadsDir => "uploads" | processedDir => "processed" end ])%list.

(** A path as a handler computes it with [path.join] from a directory of
    the server and a name it was given. *)
Record joined := {
  segments : list string;        (* the normalized path *)
  trailing_slash : bool;         (* it ends with a separator *)
  has_nul : bool                 (* it contains a NUL character *)
}.

Definition path_join (base : list string) (rel : string) : joined :=
  {| segments := Path.join base rel;
     trailing_slash := Path.trailing rel;
     has_nul := Path.mentions Ascii.zero rel |}.

(** ** Asynchronous computations: state and exceptions *)

Definition M (A : Type) : Type := world → outcome A * world.

#[export] Instance M_ret : MRet M := λ A a w, (Return a, w).

#[export] Instance M_bind : MBind M := λ A B k m w,
  match m w with
  | (Return a, w') => k a w'
  | (Throw e, w') => (Throw e, w')
  end.

(** [throw e] *)
Definition throw {A} (e : error) : M A := λ w, (Throw e, w).

(** [try { body } catch (error) { handler error }] *)
Definition try_catch {A} (body : M A) (handler : error → M A) : M A := λ w,
  match body w with
  | (Return a, w') => (Return a, w')
  | (Throw e, w') => handler e w'
  end.

(** A pure expression that may throw. *)
Definition lift {A} (o : outcome A) : M A := λ w, (o, w).

Definition effect (f : world → world) : M unit := λ w, (Return (), f w).

(** ** What the server does not decide *)

(** A response of the upstream service as [fetch] delivers it: the status
    line, and what [response.text()] and [response.json()] evaluate to. *)
Record upstream_response := {
  status_code : Z;
  text : outcome string;
  json : outcome value
}.

(** [response.ok] *)
Definition ok (r : upstream_response) : bool :=
  (200 <=? status_code r) && (status_code r <=? 299).

Record environment := {
  NODE_ENV : option string;                      (* process.env.NODE_ENV *)
  uuid : nat → string;                           (* the n-th result of uuidv4() *)
  uuid_plain : ∀ n, Path.plain (uuid n) = true;  (* hexadecimal digits and dashes: no separator *)
  now : N;                                       (* Date.now() *)
  fetch : string → image → outcome upstream_response;
                                                 (* fetch(url, picture sent): a response, or the call fails *)
  write_fault : option error;                    (* the image library cannot write its output *)
  unlink_fault : nat → option error              (* the n-th call of fs.unlink fails for a reason of the system *)
}.

(** [process.env.NODE_ENV === mode] *)
Definition node_env_is (env : environment) (mode : string) : bool :=
  match NODE_ENV env with
  | Some v => String.eqb v mode
  | None => false
  end.

Module fs.

Definition ENOENT (syscall : string) (p : filepath) : error :=
  {| class := SystemErrorC; code := Some "ENOENT";
     message := "ENOENT: no such file or directory, " ++ syscall ++ " '" ++ show_path p ++ "'";
     stack := "Error: ENOENT: no such file or directory, " ++ syscall ++ " '" ++ show_path p ++ "'" |}.

Definition bump_unlink (w : world) : world :=
  {| uploads := uploads w; processed := processed w; trace := trace w;
     uuid_calls := uuid_calls w; unlink_calls := S (unlink_calls w);
     dirname := dirname w; host := host w |}.

(** [fs.unlink(p)]: removes the file; fails when the file is not there or
    when the system refuses. *)
Definition unlink (env : environment) (p : filepath) : M unit := λ w,
  let w1 := bump_unlink w in
  match unlink_fault env (unlink_calls w) with
  | Some e => (Throw e, log (Unlinked p false) w1)
  | None =>
      match files p.1 w !! p.2 with
      | None => (Throw (ENOENT "unlink" p), log (Unlinked p false) w1)
      | Some _ => (Return (), log (Unlinked p true) (set_files p.1 (delete p.2) w1))
      end
  end.

(** What is in a directory of the server under [names]: the directory
    itself, one of its files, or nothing. *)
Definition in_store (m : gmap string content) (names : list string) : option node :=
  match names with
  | [] => Some directory
  | [name] => regular <$> m !! name
  | _ => None
  end.

(** What the path [p] leads to. *)
Definition stat (w : world) (p : list string) : option node :=
  match Path.strip (dirname w) p with
  | Some [] => Some directory
  | Some (d :: names) =>
      if String.eqb d "processed" then in_store (processed w) names
      else if String.eqb d "uploads" then in_store (uploads w) names
      else host w p
  | None =>
      match Path.strip p (dirname w) with
      | Some _ => Some directory          (* a directory above the server *)
      | None => host w p
      end
  end.

Definition failed (cd what syscall : string) (p : list string) : error :=
  {| class := SystemErrorC; code := Some cd;
     message := cd ++ ": " ++ what ++ ", " ++ syscall ++ " '" ++ Path.show p ++ "'";
     stack := "Error: " ++ cd ++ ": " ++ what ++ ", " ++ syscall ++ " '" ++ Path.show p ++ "'" |}.

(** [fs.access(p)]: the path has to lead somewhere; behind a trailing
    separator there has to be a directory. *)
Definition access (p : joined) : M unit := λ w,
  if has_nul p then
    (Throw (new_of TypeErrorC (Some "ERR_INVALID_ARG_VALUE")
              "The argument 'path' must be a string, Uint8Array, or URL without null bytes."), w)
  else
    match stat w (segments p) with
    | None => (Throw (failed "ENOENT" "no such file or directory" "access" (segments p)), w)
    | Some (regular _) =>
        if trailing_slash p
        then (Throw (failed "ENOTDIR" "not a directory" "access" (segments p)), w)
        else (Return (), w)
    | Some directory => (Return (), w)
    end.

End fs.

(** [uuidv4()] *)
Definition uuidv4 (env : environment) : M string := λ w,
  (Return (uuid env (uuid_calls w)),
   {| uploads := uploads w; processed := processed w; trace := trace w;
      uuid_calls := S (uuid_calls w); unlink_calls := unlink_calls w;
      dirname := dirname w; host := host w |}).

(** [path.extname(name)] for a bare file name: from the last dot on,
    unless there is none or the name starts with its only dot. *)
Fixpoint last_dot (s : string) : option string :=
  match s with
  | EmptyString => None
  | String c rest =>
      match last_dot rest with
      | Some ext => Some ext
      | None => if Ascii.eqb c "."%char then Some s else None
      end
  end.

Definition extname (name : string) : string :=
  match name with
  | EmptyString => ""
  | String c rest =>
      match last_dot rest with
      | Some ext => if String.eqb name ".." then "" else ext
      | None => ""
      end
  end.

(** Opening the input of an image pipeline: the file has to be there and
    has to decode. *)
Definition sharp_input (p : filepath) : M image := λ w,
  let w1 := log (SharpInput p) w in
  match files p.1 w !! p.2 with
  | None => (Throw (new_Error ("Input file is missing: " ++ show_path p)), w1)
  | Some (Raw _) => (Throw (new_Error "Input file contains unsupported image format"), w1)
  | Some (Img i) => (Return i, w1)
  end.

(** [sharp(p). ops .toBuffer()] *)
Definition sharp_toBuffer (p : filepath) (ops : list operation) : M image :=
  i ← sharp_input p; mret (Sharp.run ops i).

(** [sharp(p). ops .toFile(out)] *)
Definition sharp_toFile (env : environment) (p : filepath) (ops : list operation) (out : filepath) : M unit :=
  i ← sharp_input p;
  match write_fault env with
  | Some e => throw e
  | None => effect (λ w, log (SharpOutput out) (set_files out.1 (<[out.2 := Img (Sharp.run ops i)]>) w))
  end.

(** ** The upload middleware

    [multer] is an external dependency, and so is the multipart parser
    under it; [single] follows what they do with the one file part of a
    form.  The parser reports the part under the base name of its file
    name, and a part without a name is passed over.  The file filter runs
    first, then the disk storage streams the part to its destination; a
    part that reaches [limits.fileSize] is cut there, and what was stored
    of it is unlinked again before the request is refused with
    [LIMIT_FILE_SIZE]. *)

Module Multer.

(** The file part of the multipart form as the client sends it;
    [originalname] is its [filename] parameter. *)
Record part := {
  originalname : string;
  mimetype : string;
  size : N;                    (* bytes in the part *)
  data : content
}.

Definition backslash : ascii := Ascii.Ascii false false true true true false true false.

(** What follows the last separator of [name], if there is a separator. *)
Fixpoint after_separator (name : string) : option string :=
  match name with
  | EmptyString => None
  | String c rest =>
      match after_separator rest with
      | Some base => Some base
      | None => if Ascii.eqb c "/"%char || Ascii.eqb c backslash then Some rest else None
      end
  end.

(** The name the parser reports: what follows the last [/] or [\], and
    nothing for [.] and [..]. *)
Definition basename (name : string) : string :=
  let base := default name (after_separator name) in
  if String.eqb base ".." || String.eqb base "." then "" else base.

(** The part as the parser reports it to the middleware. *)
Definition reported (p : part) : part :=
  {| originalname := basename (originalname p);
     mimetype := mimetype p;
     size := size p;
     data := data p |}.

(** [req.file] *)
Record file := {
  file_originalname : string;
  file_mimetype : string;
  filename : string;
  path : filepath;
  file_size : N
}.

Record options := {
  destination : dir;                       (* storage.destination *)
  storage_filename : part → M string;      (* storage.filename *)
  removeFile : filepath → M unit;          (* storage._removeFile: fs.unlink *)
  fileSize : N;                            (* limits.fileSize *)
  fileFilter : part → outcome bool         (* cb(error) or cb(null, include) *)
}.

Definition MulterError (cd msg : string) : error := new_of MulterErrorC (Some cd) msg.

Definition store (p : filepath) (c : content) (w : world) : world :=
  log (Stored p) (set_files p.1 (<[p.2 := c]>) w).

(** [multer(o).single(field)] on a form with at most one file part, sent
    in that field.  [Return None] leaves [req.file] undefined; [Throw e] is
    [next(e)].  An error of the removal of a refused upload is attached to
    the error that refused it, which is passed on as it is.  Of a part
    that reaches the limit only the beginning was written; the model keeps
    the content of the part under the name until it is unlinked. *)
Definition single (o : options) (form : option part) : M (option file) :=
  match form with
  | None => mret None
  | Some sent =>
      let p := reported sent in
      if String.eqb (originalname p) "" then mret None else
      include ← lift (fileFilter o p);
      if include : bool then
        name ← storage_filename o p;
        let target := (destination o, name) in
        effect (store target (data p));;
        if (fileSize o <=? size p)%N then
          try_catch (removeFile o target) (λ storageError, mret ());;
          throw (MulterError "LIMIT_FILE_SIZE" "File too large")
        else
          mret (Some {| file_originalname := originalname p;
                        file_mimetype := mimetype p;
                        filename := name;
                        path := target;
                        file_size := size p |})
      else mret None
  end.

End Multer.

(** ** HTTP responses *)

Inductive payload :=
| json_body (v : value)          (* res.json(v) *)
| file_body (c : content)        (* res.sendFile(p), the bytes of the file *).

(** [headers] are the headers the handler set with [res.setHeader]. *)
Record response := {
  status : Z;
  headers : list (string * string);
  body : payload
}.

(** [res.status(s).json(v)] *)
Definition res_json (s : Z) (v : value) : response :=
  {| status := s; headers := []; body := json_body v |}.

(** ** server/server.js *)

(** [const storage = multer.diskStorage({ destination, filename })] *)
Definition storage_filename (env : environment) (file : Multer.part) : M string :=
  id ← uuidv4 env;
  mret (id ++ "-" ++ pretty (now env) ++ extname (Multer.originalname file)).

(** [const upload = multer({ storage, limits, fileFilter })] *)
Definition upload (env : environment) : Multer.options :=
  {| Multer.destination := uploadsDir;
     Multer.storage_filename := storage_filename env;
     Multer.removeFile := fs.unlink env;
     Multer.fileSize := 10 * 1024 * 1024;
     Multer.fileFilter := λ file,
       if String.prefix "image/" (Multer.mimetype file)
       then Return true
       else Throw (new_Error "Only image files are allowed!") |}.

Definition OPENROUTER_API_URL : string := "https://openrouter.ai/api/v1/chat/completions".

(** [buffer.toString('base64')]: the transportable text of an encoded
    picture. *)
Record base64 := toString_base64 { buffer : image }.

(** [async function imageToBase64(imagePath)] *)
Definition imageToBase64 (imagePath : filepath) : M base64 :=
  try_catch
    (optimizedBuffer ← sharp_toBuffer imagePath
       [ resize 1024 1024 {| fit := Inside; withoutEnlargement := true |};
         jpeg 85 ];
     mret (toString_base64 optimizedBuffer))
    (λ error, throw (new_Error ("Failed to process image: " ++ message error))).

(** The [try] block of [callOpenRouterAPI]. *)
Definition callOpenRouterAPI_try (env : environment) (base64Image : base64) : M value :=
  effect (log (Fetched OPENROUTER_API_URL));;
  response ← lift (fetch env OPENROUTER_API_URL (buffer base64Image));
  if negb (ok response) then
    errorData ← lift (text response);
    throw (new_Error ("OpenRouter API error: " ++ pretty (status_code response)
                        ++ " - " ++ errorData))
  else
    data ← lift (json response);
    choices ← lift (get_prop data "choices");
    choice ← lift (get_index choices 0);
    msg ← lift (get_prop choice "message");
    lift (get_prop msg "content").

(** [async function callOpenRouterAPI(base64Image)] *)
Definition callOpenRouterAPI (env : environment) (base64Image : base64) : M value :=
  try_catch
    (callOpenRouterAPI_try env base64Image)
    (λ error, throw (new_Error ("AI processing failed: " ++ message error))).

(** What [processImageWithAI] returns. *)
Record processed_result := {
  filename : string;
  path : filepath;
  analysis : value
}.

(** [async function processImageWithAI(inputPath, analysisResult)] *)
Definition processImageWithAI (env : environment) (inputPath : filepath) (analysisResult : value)
  : M processed_result :=
  try_catch
    (id ← uuidv4 env;
     let outputFilename := "processed-" ++ id ++ ".jpg" in
     let outputPath := (processedDir, outputFilename) in
     sharp_toFile env inputPath
       [ resize 2048 2048 {| fit := Inside; withoutEnlargement := true |};
         sharpen;
         modulate (11 # 10) (12 # 10) 0;
         jpeg 95 ]
       outputPath;;
     mret {| filename := outputFilename; path := outputPath; analysis := analysisResult |})
    (λ error, throw (new_Error ("Image processing failed: " ++ message error))).

(** The body of the [try] block of the repair handler. *)
Definition repair_try (env : environment) (req_file : option Multer.file) : M response :=
  match req_file with
  | None =>
      mret (res_json 400 (Obj [ ("error", Str "No image file provided");
                                ("message", Str "Please upload an image file") ]))
  | Some file =>
      (* Convert image to base64 for AI analysis *)
      base64Image ← imageToBase64 (Multer.path file);
      (* Get AI analysis *)
      analysisResult ← callOpenRouterAPI env base64Image;
      (* Process image based on AI analysis *)
      processedResult ← processImageWithAI env (Multer.path file) analysisResult;
      (* Clean up original uploaded file *)
      fs.unlink env (Multer.path file);;
      (* Return processed image URL *)
      let processedImageUrl := "/api/processed/" ++ filename processedResult in
      mret (res_json 200 (Obj [ ("success", Bool true);
                                ("processedImageUrl", Str processedImageUrl);
                                ("analysis", analysis processedResult);
                                ("originalFilename", Str (Multer.file_originalname file));
                                ("processedFilename", Str (filename processedResult)) ]))
  end.

(** The body of the [catch (error)] block of the repair handler. *)
Definition repair_catch (env : environment) (req_file : option Multer.file) (error : error)
  : M response :=
  (* Clean up uploaded file if it exists *)
  match req_file with
  | Some file =>
      try_catch (fs.unlink env (Multer.path file)) (λ cleanupError, mret ())
  | None => mret ()
  end;;
  mret (res_json 500 (Obj [ ("error", Str "Image processing failed");
                            ("message", Str (message error));
                            ("details", if node_env_is env "development"
                                        then Str (stack error)
                                        else Undefined) ])).

(** The handler of [app.post('/api/repair-image', upload.single('image'), ...)] *)
Definition repair_image (env : environment) (req_file : option Multer.file) : M response :=
  try_catch (repair_try env req_file) (repair_catch env req_file).

(** The error handling middleware, [app.use((error, req, res, next) => ...)] *)
Definition error_middleware (error : error) : response :=
  let internal :=
    res_json 500 (Obj [ ("error", Str "Internal server error");
                        ("message", Str "Something went wrong processing your request") ]) in
  match class error with
  | MulterErrorC =>
      if code_is error "LIMIT_FILE_SIZE"
      then res_json 400 (Obj [ ("error", Str "File too large");
                               ("message", Str "Image file must be smaller than 10MB") ])
      else internal
  | _ => internal
  end.

(** The 404 handler, [app.use('*', (req, res) => ...)] *)
Definition not_found_handler : response :=
  res_json 404 (Obj [ ("error", Str "Not found");
                      ("message", Str "The requested endpoint does not exist") ]).

(** An answer of a later handler to a request for which [hdrs] were set
    already. *)
Definition after_headers (hdrs : list (string * string)) (res : response) : response :=
  {| status := status res; headers := hdrs; body := body res |}.

(** [res.sendFile(p)] for an absolute path, after the headers [hdrs] were
    set.  A regular file is sent, as long as no segment of its path is
    hidden; behind a trailing separator the [index.html] of a directory is
    sent.  What cannot be sent is not an exception of the caller: a
    directory is handed on with [next()], which ends in the 404 handler,
    everything else with [next(error)], which ends in the error handling
    middleware.  The directory of the server itself is taken to have no
    hidden segment. *)
Definition sendFile (hdrs : list (string * string)) (p : joined) : M response := λ w,
  let sent c := (Return {| status := 200; headers := hdrs; body := file_body c |}, w) in
  let refused e := (Return (after_headers hdrs (error_middleware e)), w) in
  if existsb Path.hidden (Path.beyond (dirname w) (segments p)) then
    refused (new_Error "Not Found")
  else
    match fs.stat w (segments p) with
    | Some (regular c) =>
        if trailing_slash p
        then refused (fs.failed "ENOTDIR" "not a directory" "stat" (segments p))
        else sent c
    | Some directory =>
        if trailing_slash p then
          match fs.stat w (segments p ++ ["index.html"]) with
          | Some (regular c) => sent c
          | _ => refused (new_Error "Not Found")
          end
        else (Return (after_headers hdrs not_found_handler), w)
    | None => refused (fs.failed "ENOENT" "no such file or directory" "stat" (segments p))
    end.

(** The handler of [app.get('/api/processed/:filename', ...)] *)
Definition serve_processed (filename : string) : M response :=
  try_catch
    (filePath ← (λ w, (Return (path_join (dir_path w processedDir) filename), w));
     (* Check if file exists *)
     fs.access filePath;;
     (* Set appropriate headers, send file *)
     sendFile [ ("Content-Type", "image/jpeg");
                ("Cache-Control", "public, max-age=86400") ] filePath)
    (λ error,
       mret (res_json 404 (Obj [ ("error", Str "Image not found");
                                 ("message", Str "The requested processed image does not exist") ]))).

(** [POST /api/repair-image]: the upload middleware, then the handler; an
    error of the middleware goes to the error handling middleware.  [None]
    is a request that is never answered (the asynchronous handler
    rejected). *)
Definition post_repair_image (env : environment) (form : option Multer.part)
  : world → option response * world := λ w,
  match Multer.single (upload env) form w with
  | (Throw e, w1) => (Some (error_middleware e), w1)
  | (Return req_file, w1) =>
      match repair_image env req_file w1 with
      | (Return res, w2) => (Some res, w2)
      | (Throw _, w2) => (None, w2)
      end
  end.

(** [GET /api/processed/:filename]; [filename] is the route parameter as
    the router decodes it, so that it may contain separators (sent as
    [%2F]). *)
Definition get_processed (filename : string) : world → option response * world := λ w,
  match serve_processed filename w with
  | (Return res, w1) => (Some res, w1)
  | (Throw _, w1) => (None, w1)
  end.

(** ** Notions used in the statements *)

#[export] Instance dir_eq_dec : EqDecision dir.
Proof. solve_decision. Defined.

(** The events of [w'] that happened after [w], newest first. *)
Definition since (w w' : world) : list event :=
  take (length (trace w') - length (trace w)) (trace w').

(** Calls of [fs.unlink] on [p], by the handler or by the upload
    middleware, whatever their result. *)
Definition is_unlink (p : filepath) (ev : event) : bool :=
  match ev with
  | Unlinked q _ => bool_decide (q = p)
  | _ => false
  end.

(** Calls of [fs.unlink] on [p], by the handler or by the upload
    middleware, that removed the file. *)
Definition is_deletion (p : filepath) (ev : event) : bool :=
  match ev with
  | Unlinked q true => bool_decide (q = p)
  | _ => false
  end.

(** Runs of an image pipeline (the optimizer is the first of them). *)
Definition is_image_pass (ev : event) : bool :=
  match ev with
  | SharpInput _ => true
  | _ => false
  end.

Definition count (f : event → bool) (evs : list event) : nat :=
  length (List.filter f evs).

(** The upload has a name and passes the file filter, so that the
    middleware stores it. *)
Definition stored (p : Multer.part) : Prop :=
  Multer.basename (Multer.originalname p) ≠ "" ∧
  String.prefix "image/" (Multer.mimetype p) = true.

(** The upload is stored and stays below the size limit, so that the
    middleware hands it to the handler. *)
Definition accepted (p : Multer.part) : Prop :=
  stored p ∧ (Multer.size p < 10 * 1024 * 1024)%N.

(** Where the disk storage keeps the upload of a request that starts in [w]. *)
Definition transient (env : environment) (w : world) (p : Multer.part) : filepath :=
  (uploadsDir,
   uuid env (uuid_calls w) ++ "-" ++ pretty (now env)
     ++ extname (Multer.basename (Multer.originalname p))).

(** The world in which the handler of an accepted upload starts. *)
Definition intake (env : environment) (w : world) (p : Multer.part) : world :=
  Multer.store (transient env w p) (Multer.data p)
    {| uploads := uploads w; processed := processed w; trace := trace w;
       uuid_calls := S (uuid_calls w); unlink_calls := unlink_calls w;
       dirname := dirname w; host := host w |}.

(** [req.file] of an accepted upload. *)
Definition intake_file (env : environment) (w : world) (p : Multer.part) : Multer.file :=
  {| Multer.file_originalname := Multer.basename (Multer.originalname p);
     Multer.file_mimetype := Multer.mimetype p;
     Multer.filename := (transient env w p).2;
     Multer.path := transient env w p;
     Multer.file_size := Multer.size p |}.

(** The pipelines of the optimizer and of the materializer. *)
Definition optimized (i : image) : image :=
  Sharp.run [ resize 1024 1024 {| fit := Inside; withoutEnlargement := true |}; jpeg 85 ] i.

Definition enhanced (i : image) : image :=
  Sharp.run [ resize 2048 2048 {| fit := Inside; withoutEnlargement := true |};
              sharpen; modulate (11 # 10) (12 # 10) 0; jpeg 95 ] i.

(** A field of a JSON response. *)
Definition field (k : string) (res : option response) : value :=
  match res with
  | Some {| body := json_body (Obj fields) |} => own_property fields k
  | _ => Undefined
  end.

Definition status_of (res : option response) : option Z := status <$> res.

(** The body the [catch] block of the repair handler sends for [error]. *)
Definition failure_body (env : environment) (error : error) : value :=
  Obj [ ("error", Str "Image processing failed");
        ("message", Str (message error));
        ("details", if node_env_is env "development" then Str (stack error) else Undefined) ].

(** The body the repair handler sends after a successful run. *)
Definition success_body (file : Multer.file) (r : processed_result) : value :=
  Obj [ ("success", Bool true);
        ("processedImageUrl", Str ("/api/processed/" ++ filename r));
        ("analysis", analysis r);
        ("originalFilename", Str (Multer.file_originalname file));
        ("processedFilename", Str (filename r)) ].

(** From [w] to [w'] the transient store is untouched and [fs.unlink] was
    not called on [p]. *)
Definition steady (p : filepath) (w w' : world) : Prop :=
  uploads w' = uploads w ∧
  unlink_calls w' = unlink_calls w ∧
  ∃ evs, trace w' = (evs ++ trace w)%list ∧ count (is_unlink p) evs = 0%nat.

(** *** Claims, as they are written *)

(** "The transient input file is deleted exactly once by the time the
    request concludes": one deletion, and the file is gone. *)
Definition deleted_exactly_once (env : environment) (w : world) (p : Multer.part) : Prop :=
  let w' := (post_repair_image env (Some p) w).2 in
  count (is_deletion (transient env w p)) (since w w') = 1%nat ∧
  uploads w' !! (transient env w p).2 = None.




(** "Rejects the request with a size error (400-class, 'File too large')
    before any optimization step runs on the upload". *)
Definition rejected_as_too_large (env : environment) (w : world) (p : Multer.part) : Prop :=
  let '(res, w') := post_repair_image env (Some p) w in
  res = Some (res_json 400 (Obj [ ("error", Str "File too large");
                                  ("message", Str "Image file must be smaller than 10MB") ])) ∧
  count is_image_pass (since w w') = 0%nat.

(** "Rejects the request with a 400-class ValidationError response, and no
    file for that upload remains in the transient store". *)
Definition rejected_as_invalid (env : environment) (w : world) (p : Multer.part) : Prop :=
  let '(res, w') := post_repair_image env (Some p) w in
  (∃ s, status_of res = Some s ∧ 400 <= s <= 499) ∧
  uploads w' = uploads w.

(** "If a file with that name exists in the artifact store, the endpoint
    returns its stored bytes with header Content-Type: image/jpeg and a
    cache directive; if no such file exists, it responds with a 404-class
    JSON NotFound error". *)
Definition retrieval_as_claimed (w : world) (name : string) : Prop :=
  let res := (get_processed name w).1 in
  match processed w !! name with
  | Some c =>
      res = Some {| status := 200;
                    headers := [ ("Content-Type", "image/jpeg");
                                 ("Cache-Control", "public, max-age=86400") ];
                    body := file_body c |}
  | None =>
      status_of res = Some 404 ∧ ∃ v, body <$> res = Some (json_body v)
  end.

(** *** Sample requests *)

Module Sample.

(** The server is installed in [/srv/app/server]; next to its two
    directories the disk holds its source and its [.env] file. *)
Definition app : list string := [ "srv"; "app"; "server" ].

Definition source : content := Raw "import express from 'express'; ...".

Definition secrets : content := Raw "OPENROUTER_API_KEY=sk-or-v1-0000".

Definition disk (p : list string) : option node :=
  if bool_decide (p = (app ++ ["server.js"])%list) then Some (regular source)
  else if bool_decide (p = (app ++ [".env"])%list) then Some (regular secrets)
  else if bool_decide (p = (app ++ ["node_modules"])%list) then Some directory
  else None.

Definition start : world :=
  {| uploads := ∅; processed := ∅; trace := []; uuid_calls := 0; unlink_calls := 0;
     dirname := app; host := disk |}.

(** A 2000 x 1500 scan. *)
Definition photo : image :=
  {| scene := 7; width := 2000; height := 1500; encoding := PNG; quality := None; edits := [];
     generations := 0 |}.

Definition plan : value :=
  Obj [ ("choices", Arr [ Obj [ ("message", Obj [ ("content", Str "restore plan X") ]) ] ]) ].

Definition ids (n : nat) : string := "id" ++ pretty n.

Definition digits_plain (x : N) (s : string) :
  Path.plain s = true → Path.plain (pretty_N_go x s) = true.
Proof.
  revert s. induction (N.lt_wf_0 x) as [x _ IH]. intros s Hs.
  destruct (decide (x = 0)%N) as [->|Hx]; [by rewrite pretty_N_go_0|].
  rewrite pretty_N_go_step by lia.
  apply IH; [apply N.div_lt; lia|].
  unfold Path.plain in *. simpl.
  apply andb_true_iff in Hs as [Hsep Hnul].
  apply negb_true_iff in Hsep, Hnul. rewrite Hsep, Hnul.
  unfold pretty_N_char. by repeat case_match.
Qed.

Definition ids_plain (n : nat) : Path.plain (ids n) = true.
Proof.
  unfold ids, pretty, pretty_nat, pretty, pretty_N.
  assert (H : ∀ s, Path.plain s = true → Path.plain ("id" ++ s) = true) by (intros s Hs; exact Hs).
  apply H. destruct (decide (N.of_nat n = 0)%N); [reflexivity|].
  by apply digits_plain.
Qed.

(** The upstream answers with a plan; nothing fails. *)
Definition calm : environment :=
  {| NODE_ENV := Some "production"; uuid := ids; uuid_plain := ids_plain; now := 1700000000000;
     fetch := λ _ _, Return {| status_code := 200; text := Return "plan"; json := Return plan |};
     write_fault := None; unlink_fault := λ _, None |}.

(** The upstream answers 429 with a text body. *)
Definition throttled : environment :=
  {| NODE_ENV := Some "development"; uuid := ids; uuid_plain := ids_plain; now := 1700000000000;
     fetch := λ _ _, Return {| status_code := 429; text := Return "rate limited";
                               json := Throw (new_of SyntaxErrorC None "Unexpected token r in JSON at position 0") |};
     write_fault := None; unlink_fault := λ _, None |}.

(** The upstream answers 200 with a body that is not JSON. *)
Definition garbled_response : upstream_response :=
  {| status_code := 200; text := Return "upstream overloaded";
     json := Throw (new_of SyntaxErrorC None "Unexpected token u in JSON at position 0") |}.

Definition garbled : environment :=
  {| NODE_ENV := Some "production"; uuid := ids; uuid_plain := ids_plain; now := 1700000000000;
     fetch := λ _ _, Return garbled_response;
     write_fault := None; unlink_fault := λ _, None |}.

Definition EPERM : error :=
  new_of SystemErrorC (Some "EPERM") "EPERM: operation not permitted, unlink".


(** The upstream cannot be reached and the file system refuses to unlink. *)
Definition stuck : environment :=
  {| NODE_ENV := Some "production"; uuid := ids; uuid_plain := ids_plain; now := 1700000000000;
     fetch := λ _ _, Throw (new_TypeError "fetch failed");
     write_fault := None; unlink_fault := λ _, Some EPERM |}.

(** The upstream answers with a message that has no content. *)
Definition terse : environment :=
  {| NODE_ENV := Some "production"; uuid := ids; uuid_plain := ids_plain; now := 1700000000000;
     fetch := λ _ _,
       Return {| status_code := 200; text := Return "{}";
                 json := Return (Obj [ ("choices",
                                        Arr [ Obj [ ("message",
                                                     Obj [ ("role", Str "assistant") ]) ] ]) ]) |};
     write_fault := None; unlink_fault := λ _, None |}.

(** The image library cannot write the artifact. *)
Definition full_disk : environment :=
  {| NODE_ENV := None; uuid := ids; uuid_plain := ids_plain; now := 1700000000000;
     fetch := λ _ _, Return {| status_code := 200; text := Return "plan"; json := Return plan |};
     write_fault := Some (new_Error "ENOSPC: no space left on device, write");
     unlink_fault := λ _, None |}.

Definition scan : Multer.part :=
  {| Multer.originalname := "grandma.png"; Multer.mimetype := "image/png";
     Multer.size := 3000000; Multer.data := Img photo |}.

Definition notes : Multer.part :=
  {| Multer.originalname := "notes.jpg"; Multer.mimetype := "text/plain";
     Multer.size := 30; Multer.data := Raw "not a picture" |}.

Definition huge_scan : Multer.part :=
  {| Multer.originalname := "poster.png"; Multer.mimetype := "image/png";
     Multer.size := 10 * 1024 * 1024 + 1; Multer.data := Img photo |}.

Definition huge_notes : Multer.part :=
  {| Multer.originalname := "dump.txt"; Multer.mimetype := "text/plain";
     Multer.size := 11 * 1024 * 1024; Multer.data := Raw "not a picture" |}.

End Sample.

(** ** Further notions *)

(** A name that is one visible segment of a path: not empty, without
    separator and NUL, and without a leading dot. *)
Definition visible (name : string) : bool :=
  Path.plain name && negb (String.prefix "." name) && negb (String.eqb name "").

(** One request to the upstream service. *)
Definition is_fetch (ev : event) : bool :=
  match ev with
  | Fetched _ => true
  | _ => false
  end.

(** The world the [catch] block of the repair handler leaves behind when it
    starts in [w]: its unlink has been tried. *)
Definition cleanup (env : environment) (p : filepath) (w : world) : world :=
  (fs.unlink env p w).2.

(** The name of the artifact of a request that starts in [w]: the disk
    storage draws the first identifier, the materializer the second. *)
Definition artifact_name (env : environment) (w : world) : string :=
  "processed-" ++ uuid env (S (uuid_calls w)) ++ ".jpg".

(** [v || d] for a string that may be undefined: the empty string is
    falsy as well. *)
Definition or_else (v : option string) (d : string) : string :=
  match v with
  | Some s => if String.eqb s "" then d else s
  | None => d
  end.

(** The [origin] option of the CORS middleware. *)
Definition cors_origin (env : environment) : list string :=
  if node_env_is env "production"
  then [ "https://yourdomain.com"; "https://www.yourdomain.com" ]
  else [ "http://localhost:5173"; "http://localhost:3000" ].

(** The handler of [app.get('/api/health', ...)]; [timestamp] is
    [new Date().toISOString()]. *)
Definition health (env : environment) (timestamp : string) : response :=
  res_json 200 (Obj [ ("status", Str "healthy");
                      ("timestamp", Str timestamp);
                      ("version", Str "1.0.0");
                      ("environment", Str (or_else (NODE_ENV env) "development")) ]).

(** What a client reads back from a value sent with [res.json]: in
    objects, properties that are [undefined] are left out; in arrays,
    [undefined] becomes [null]. *)
Fixpoint on_the_wire (v : value) : value :=
  match v with
  | Arr items =>
      Arr (map (λ x, match x with Undefined => Null | _ => on_the_wire x end) items)
  | Obj fields =>
      Obj ((fix entries (fs : list (string * value)) : list (string * value) :=
              match fs with
              | [] => []
              | (k, Undefined) :: rest => entries rest
              | (k, x) :: rest => (k, on_the_wire x) :: entries rest
              end) fields)
  | other => other
  end.

(** The JSON body of an answer as the client receives it. *)
Definition received (res : option response) : value :=
  match res with
  | Some {| body := json_body v |} => on_the_wire v
  | _ => Undefined
  end.

(** "A JSON body containing exactly the fields success (true),
    processedImageUrl, analysis (the external analysis text),
    originalFilename and processedFilename", of the body as it is sent. *)
Definition five_fields (res : option response) : Prop :=
  status_of res = Some 200 ∧
  ∃ url text original name,
    received res = Obj [ ("success", Bool true);
                         ("processedImageUrl", Str url);
                         ("analysis", Str text);
                         ("originalFilename", Str original);
                         ("processedFilename", Str name) ].

(** ** Expressions that may throw, outside of the server's world *)

#[export] Instance outcome_ret : MRet outcome := λ A a, Return a.

#[export] Instance outcome_bind : MBind outcome := λ A B k o,
  match o with
  | Return a => k a
  | Throw e => Throw e
  end.

(** [!!v]: everything is truthy but [undefined], [null], [false], [0] and
    the empty string. *)
Definition truthy (v : value) : bool :=
  match v with
  | Undefined | Null => false
  | Bool b => b
  | Num n => negb (n =? 0)
  | Str s => negb (String.eqb s "")
  | Arr _ | Obj _ => true
  end.

(** ** api/repair-image.js and its sibling: the serverless relay

    A serverless function that relays a base64 picture and a prompt to the
    upstream service.  [handler] is [api/repair-image.js]; [handler_unchecked]
    is the earlier variant of the same function that reads the answer
    without looking at its shape. *)

Module Vercel.

(** What the function reads of [req]. *)
Record request := {
  method : string;
  referer : option string;       (* req.headers.referer *)
  body : value                   (* req.body *)
}.

Inductive sent :=
| json (v : value)               (* res.json(v) *)
| ended                          (* res.end() *).

Record answer := {
  status : Z;
  headers : list (string * string);
  payload : sent
}.

(** What the function puts into its request to the upstream service;
    [text] and [image] are the values spliced into the message. *)
Record upstream_request := {
  url : string;
  authorization : string;
  http_referer : string;
  title : string;
  model : string;
  system : option string;
  text : value;
  image : value;
  detail : option string;
  max_tokens : option Z
}.

(** What the function reads of the upstream response. *)
Record reply := {
  ok : bool;
  statusText : string;
  json_ : outcome value          (* await response.json() *)
}.

Record runtime := {
  env_var : string → option string;                (* process.env *)
  fetch : upstream_request → outcome reply;
  stringify : value → string                       (* JSON.stringify *)
}.

Definition cors_headers : list (string * string) :=
  [ ("Access-Control-Allow-Credentials", "true");
    ("Access-Control-Allow-Origin", "*");
    ("Access-Control-Allow-Methods", "GET,OPTIONS,PATCH,DELETE,POST,PUT");
    ("Access-Control-Allow-Headers",
     "X-CSRF-Token, X-Requested-With, Accept, Accept-Version, Content-Length, Content-MD5, Content-Type, Date, X-Api-Version") ].

(** [res.status(s).json(v)], after the four [res.setHeader] calls. *)
Definition respond (s : Z) (v : value) : answer :=
  {| status := s; headers := cors_headers; payload := json v |}.

Definition default_prompt : string :=
  "Restore this photo, fix any damage, enhance colors, and improve quality.".

(** [`Bearer ${key}`] *)
Definition bearer (key : option string) : string :=
  "Bearer " ++ match key with Some k => k | None => "undefined" end.

(** [const { imageBase64, prompt = default_prompt } = req.body] *)
Definition destructure (body : value) : outcome (value * value) :=
  match body with
  | Undefined =>
      Throw (new_TypeError
        "Cannot destructure property 'imageBase64' of 'req.body' as it is undefined.")
  | Null =>
      Throw (new_TypeError
        "Cannot destructure property 'imageBase64' of 'req.body' as it is null.")
  | _ =>
      imageBase64 ← get_prop body "imageBase64";
      prompt ← get_prop body "prompt";
      mret (imageBase64, match prompt with Undefined => Str default_prompt | _ => prompt end)
  end.

(** The [catch] block. *)
Definition failure (error : error) : answer :=
  respond 500 (Obj [ ("error", Str "Error processing image");
                     ("message", Str (message error)) ]).

(** The request of [api/repair-image.js]. *)
Definition build_request (rt : runtime) (req : request) (imageBase64 prompt : value)
  : upstream_request :=
  {| url := "https://openrouter.ai/api/v1/chat/completions";
     authorization := bearer (env_var rt "VITE_OPENROUTER_API_KEY");
     http_referer := or_else (referer req) "https://picturerepairapp.click";
     title := "Picture Repair App";
     model := "anthropic/claude-3-5-sonnet";
     system := None;
     text := prompt;
     image := imageBase64;
     detail := Some "high";
     max_tokens := Some 4096 |}.

(** From the upstream response to the content, as [api/repair-image.js]
    does it: the shape is looked at before the content is read. *)
Definition read_checked (rt : runtime) (response : reply) : outcome value :=
  if negb (ok response) then
    errorData ← json_ response;
    Throw (new_Error ("API error: " ++ statusText response ++ ", " ++ stringify rt errorData))
  else
    data ← json_ response;
    choices ← get_prop data "choices";
    if negb (truthy choices) then Throw (new_Error "Invalid API response format") else
    choice ← get_index choices 0;
    if negb (truthy choice) then Throw (new_Error "Invalid API response format") else
    msg ← get_prop choice "message";
    if negb (truthy msg) then Throw (new_Error "Invalid API response format") else
    get_prop msg "content".

(** [module.exports = async function handler(req, res)] of
    [api/repair-image.js]: the answer, and the requests sent upstream. *)
Definition handler (rt : runtime) (req : request) : answer * list upstream_request :=
  if String.eqb (method req) "OPTIONS" then
    ({| status := 200; headers := cors_headers; payload := ended |}, [])
  else if negb (String.eqb (method req) "POST") then
    (respond 405 (Obj [ ("error", Str "Method not allowed") ]), [])
  else
    match destructure (body req) with
    | Throw error => (failure error, [])
    | Return (imageBase64, prompt) =>
        if negb (truthy imageBase64) then
          (respond 400 (Obj [ ("error", Str "Image data is required") ]), [])
        else
          let request := build_request rt req imageBase64 prompt in
          (match response ← fetch rt request; read_checked rt response with
           | Return content =>
               respond 200 (Obj [ ("success", Bool true); ("data", content) ])
           | Throw error => failure error
           end,
           [request])
    end.

(** The request of the unchecked variant. *)
Definition build_request_unchecked (rt : runtime) (req : request) (imageBase64 prompt : value)
  : upstream_request :=
  {| url := "https://openrouter.ai/api/v1/chat/completions";
     authorization := bearer (env_var rt "OPENROUTER_API_KEY");
     http_referer := or_else (referer req) "https://picturerepairapp.click";
     title := "Picture Repair App";
     model := "anthropic/claude-3-opus";
     system := Some "You are an expert in photo restoration. Restore the provided image to fix damage, enhance colors, and improve quality. Return ONLY the restored image without any text.";
     text := prompt;
     image := imageBase64;
     detail := None;
     max_tokens := None |}.

(** From the upstream response to the content, read blindly:
    [data.choices[0].message.content]. *)
Definition read_unchecked (rt : runtime) (response : reply) : outcome value :=
  if negb (ok response) then
    errorData ← json_ response;
    Throw (new_Error ("API error: " ++ statusText response ++ ", " ++ stringify rt errorData))
  else
    data ← json_ response;
    choices ← get_prop data "choices";
    choice ← get_index choices 0;
    msg ← get_prop choice "message";
    get_prop msg "content".

(** [export default async function handler(req, res)] of the unchecked
    variant. *)
Definition handler_unchecked (rt : runtime) (req : request) : answer * list upstream_request :=
  if String.eqb (method req) "OPTIONS" then
    ({| status := 200; headers := cors_headers; payload := ended |}, [])
  else if negb (String.eqb (method req) "POST") then
    (respond 405 (Obj [ ("error", Str "Method not allowed") ]), [])
  else
    match destructure (body req) with
    | Throw error => (failure error, [])
    | Return (imageBase64, prompt) =>
        if negb (truthy imageBase64) then
          (respond 400 (Obj [ ("error", Str "Image data is required") ]), [])
        else
          let request := build_request_unchecked rt req imageBase64 prompt in
          (match response ← fetch rt request; read_unchecked rt response with
           | Return content =>
               respond 200 (Obj [ ("success", Bool true); ("data", content) ])
           | Throw error => failure error
           end,
           [request])
    end.

End Vercel.

(** ** The page that calls the repair endpoint

    The list of uploaded images of the [App] component and its
    [processImage].  A state update [setImages(prev => ...)] is a function
    on the list; [processImage] yields its updates in the order it issues
    them.  [images] is the list the component was rendered with, which is
    where [processImage] looks its image up. *)

Module Client.

Inductive image_status := uploaded | processing | completed | errored.

Record UploadedImage := {
  id : string;
  file : Multer.part;            (* the File, sent as the part [image] of the form *)
  preview : string;
  processed : value;             (* processed?: string *)
  status : image_status;
  error : option string          (* error?: string *)
}.

(** What [processImage] reads of the response of [fetch]. *)
Record reply := {
  ok : bool;
  statusText : string;
  json : outcome value           (* await response.json() *)
}.

(** [prev.map(img => img.id === id ? f(img) : img)] *)
Definition update (id : string) (f : UploadedImage → UploadedImage)
    (prev : list UploadedImage) : list UploadedImage :=
  map (λ img, if String.eqb (Client.id img) id then f img else img) prev.

(** [{ ...img, status: 'processing' }] *)
Definition to_processing (img : UploadedImage) : UploadedImage :=
  {| id := id img; file := file img; preview := preview img; processed := processed img;
     status := processing; error := error img |}.

(** [{ ...img, status: 'completed', processed: processedImageUrl }] *)
Definition to_completed (processedImageUrl : value) (img : UploadedImage) : UploadedImage :=
  {| id := id img; file := file img; preview := preview img; processed := processedImageUrl;
     status := completed; error := error img |}.

(** [{ ...img, status: 'error', error: message }] *)
Definition to_error (msg : string) (img : UploadedImage) : UploadedImage :=
  {| id := id img; file := file img; preview := preview img; processed := processed img;
     status := errored; error := Some msg |}.

(** The [try] block of [processImage]: the form is sent, and the URL of the
    processed image is read from the answer. *)
Definition request (send : Multer.part → outcome reply) (image : UploadedImage)
  : outcome value :=
  response ← send (file image);
  if negb (ok response) then
    Throw (new_Error ("API error: " ++ statusText response))
  else
    data ← json response;
    processedImageUrl ← get_prop data "processedImageUrl";
    if truthy processedImageUrl then mret processedImageUrl
    else get_prop data "processedImage".

(** [const processImage = async (id) => ...] *)
Definition processImage (send : Multer.part → outcome reply) (images : list UploadedImage)
    (id : string) : list (list UploadedImage → list UploadedImage) :=
  update id to_processing ::
  match List.find (λ img, String.eqb (Client.id img) id) images with
  | None => []
  | Some image =>
      [ match request send image with
        | Return processedImageUrl => update id (to_completed processedImageUrl)
        | Throw error => update id (to_error (message error))
        end ]
  end.

(** The state after the updates were applied, in their order. *)
Definition run (updates : list (list UploadedImage → list UploadedImage))
    (prev : list UploadedImage) : list UploadedImage :=
  foldl (λ state u, u state) prev updates.

(** [link.href] of [downloadImage]: [image.processed || image.preview]. *)
Definition download_href (image : UploadedImage) : value :=
  if truthy (processed image) then processed image else Str (preview image).

End Client.

(** The answer of the server as [fetch] presents it to the page; [reason]
    is the reason phrase that comes with a status. *)
Definition browser_reply (reason : Z → string) (res : response) : Client.reply :=
  {| Client.ok := (200 <=? status res) && (status res <=? 299);
     Client.statusText := reason (status res);
     Client.json := match body res with
                    | json_body v => Return (on_the_wire v)
                    | file_body _ =>
                        Throw (new_of SyntaxErrorC None "Unexpected token in JSON at position 0")
                    end |}.

(** [fetch('/api/repair-image', { method: 'POST', body: formData })] against
    the server in world [w]. *)
Definition send_form (env : environment) (reason : Z → string) (w : world)
    (part : Multer.part) : outcome Client.reply :=
  match (post_repair_image env (Some part) w).1 with
  | Some res => Return (browser_reply reason res)
  | None => Throw (new_TypeError "Failed to fetch")
  end.

(** * Properties *)

(** ** Geometry of [resize] *)

Section Geometry.

Local Open Scope Q_scope.

Lemma inject_pos_ge_1 (w : positive) : 1 <= inject_Z (Z.pos w).
Proof. change 1 with (inject_Z 1). rewrite <- Zle_Qle. lia. Qed.

Lemma round_inject (z : Z) : round (inject_Z z) = z.
Proof.
  unfold round.
  assert (Hlo : (z <= Qfloor (inject_Z z + (1 # 2)))%Z).
  { rewrite <- (Qfloor_Z z) at 1. apply Qfloor_resp_le. lra. }
  assert (Hhi : (Qfloor (inject_Z z + (1 # 2)) < z + 1)%Z).
  { apply Z.lt_nge. intros Hc.
    pose proof (Qfloor_le (inject_Z z + (1 # 2))) as Hf.
    rewrite Zle_Qle, inject_Z_plus in Hc.
    change (inject_Z 1) with 1 in Hc.
    generalize dependent (inject_Z (Qfloor (inject_Z z + (1 # 2)))).
    generalize (inject_Z z). intros a b Hb Ha. lra. }
  lia.
Qed.

Lemma round_le (x : Q) (z : Z) : x <= inject_Z z → (round x <= z)%Z.
Proof.
  intros H. rewrite <- (round_inject z). unfold round.
  apply Qfloor_resp_le. lra.
Qed.

Lemma source_le_target_times_shrink (w tw : positive) :
  inject_Z (Z.pos w) <= inject_Z (Z.pos tw) * (Z.pos w # tw).
Proof. unfold Qle, Qmult, inject_Z; simpl. nia. Qed.

(** One axis: a shrink factor that is at least 1 and at least
    source/target, clamped to the source length, yields a length within
    both the target and the source. *)
Lemma axis_bound (w tw : positive) (s : Q) :
  1 <= s → Z.pos w # tw <= s →
  let len := Z.to_pos (round (inject_Z (Z.pos w) / Qmin s (inject_Z (Z.pos w)))) in
  (len <= tw)%positive ∧ (len <= w)%positive.
Proof.
  intros H1 Hs. set (hs := Qmin s (inject_Z (Z.pos w))).
  pose proof (inject_pos_ge_1 w) as Hw.
  assert (Hhs1 : 1 <= hs) by (apply Q.min_glb; assumption).
  assert (Hle_w : (round (inject_Z (Z.pos w) / hs) <= Z.pos w)%Z).
  { apply round_le, Qle_shift_div_r; [lra | nra]. }
  assert (Hle_tw : (round (inject_Z (Z.pos w) / hs) <= Z.pos tw)%Z).
  { destruct (Q.min_spec s (inject_Z (Z.pos w))) as [[_ Heq]|[_ Heq]]; fold hs in Heq.
    - apply round_le. rewrite Heq. apply Qle_shift_div_r; [lra|].
      pose proof (source_le_target_times_shrink w tw).
      pose proof (inject_pos_ge_1 tw). nra.
    - assert (Hone : (round (inject_Z (Z.pos w) / hs) <= 1)%Z).
      { apply round_le. rewrite Heq. change (inject_Z 1) with 1.
        apply Qle_shift_div_r; lra. }
      lia. }
  simpl. split; lia.
Qed.

(** [fit: 'inside'] with [withoutEnlargement: true] never leaves the
    target box and never enlarges. *)
Lemma resized_inside (w h tw th : positive) :
  let o := {| fit := Inside; withoutEnlargement := true |} in
  ((resized w h tw th o).1 <= tw ∧ (resized w h tw th o).2 <= th ∧
   (resized w h tw th o).1 <= w ∧ (resized w h tw th o).2 <= h)%positive.
Proof.
  unfold resized, resolve_shrink; simpl.
  destruct (axis_bound w tw (Qmax 1 (Qmax (Z.pos w # tw) (Z.pos h # th)))) as [? ?].
  { apply Q.le_max_l. }
  { eapply Qle_trans; [apply Q.le_max_l | apply Q.le_max_r]. }
  destruct (axis_bound h th (Qmax 1 (Qmax (Z.pos w # tw) (Z.pos h # th)))) as [? ?].
  { apply Q.le_max_l. }
  { eapply Qle_trans; [apply Q.le_max_r | apply Q.le_max_r]. }
  auto.
Qed.

End Geometry.

Lemma optimized_spec (i : image) :
  fits_within 1024 1024 (optimized i) ∧
  (width (optimized i) <= width i)%positive ∧
  (height (optimized i) <= height i)%positive ∧
  encoding (optimized i) = JPEG ∧ quality (optimized i) = Some 85%N ∧
  scene (optimized i) = scene i ∧ edits (optimized i) = edits i.
Proof.
  pose proof (resized_inside (width i) (height i) 1024 1024) as H.
  unfold optimized, fits_within, Sharp.run. cbn [foldl Sharp.apply] in *.
  destruct (resized _ _ _ _ _) as [w' h']; simpl in *.
  intuition.
Qed.

Lemma enhanced_spec (i : image) :
  fits_within 2048 2048 (enhanced i) ∧
  (width (enhanced i) <= width i)%positive ∧
  (height (enhanced i) <= height i)%positive ∧
  encoding (enhanced i) = JPEG ∧ quality (enhanced i) = Some 95%N ∧
  scene (enhanced i) = scene i ∧
  edits (enhanced i) = (edits i ++ [Sharpened; Modulated (11 # 10) (12 # 10) 0])%list.
Proof.
  pose proof (resized_inside (width i) (height i) 2048 2048) as H.
  unfold enhanced, fits_within, Sharp.run. cbn [foldl Sharp.apply] in *.
  destruct (resized _ _ _ _ _) as [w' h']; simpl in *.
  rewrite <- app_assoc. intuition.
Qed.

(** ** The steps of the pipeline, one by one *)

Ltac unfold_M :=
  unfold mbind, M_bind, mret, M_ret, try_catch, throw, lift, effect in *.

Lemma since_app (w w' : world) (evs : list event) :
  trace w' = (evs ++ trace w)%list → since w w' = evs.
Proof.
  intros H. unfold since. rewrite H, length_app.
  replace (length evs + length (trace w) - length (trace w))%nat with (length evs) by lia.
  by rewrite take_app_length.
Qed.

(** The upload middleware on the four kinds of file part. *)
Lemma single_unnamed (env : environment) (w : world) (p : Multer.part) :
  Multer.basename (Multer.originalname p) = "" →
  Multer.single (upload env) (Some p) w = (Return None, w).
Proof. intros Hname. unfold Multer.single; simpl. by rewrite Hname. Qed.

Lemma named_eqb (p : Multer.part) :
  Multer.basename (Multer.originalname p) ≠ "" →
  String.eqb (Multer.basename (Multer.originalname p)) "" = false.
Proof. intros H. by apply String.eqb_neq. Qed.

Lemma single_accepted (env : environment) (w : world) (p : Multer.part) :
  accepted p →
  Multer.single (upload env) (Some p) w = (Return (Some (intake_file env w p)), intake env w p).
Proof.
  intros [[Hname Hmime] Hsize]. unfold Multer.single, upload; simpl.
  rewrite (named_eqb p Hname).
  unfold_M. rewrite Hmime. unfold storage_filename, uuidv4. unfold_M. simpl.
  destruct (N.leb_spec (10 * 1024 * 1024) (Multer.size p)) as [Hle|_]; [lia|].
  reflexivity.
Qed.

Lemma single_not_image (env : environment) (w : world) (p : Multer.part) :
  Multer.basename (Multer.originalname p) ≠ "" →
  String.prefix "image/" (Multer.mimetype p) = false →
  Multer.single (upload env) (Some p) w = (Throw (new_Error "Only image files are allowed!"), w).
Proof.
  intros Hname Hmime. unfold Multer.single, upload; simpl.
  rewrite (named_eqb p Hname). unfold_M. by rewrite Hmime.
Qed.

Lemma single_too_large (env : environment) (w : world) (p : Multer.part) :
  stored p →
  (10 * 1024 * 1024 <= Multer.size p)%N →
  Multer.single (upload env) (Some p) w
  = (Throw (Multer.MulterError "LIMIT_FILE_SIZE" "File too large"),
     cleanup env (transient env w p) (intake env w p)).
Proof.
  intros [Hname Hmime] Hsize. unfold Multer.single, upload, cleanup; simpl.
  rewrite (named_eqb p Hname).
  unfold_M. rewrite Hmime. unfold storage_filename, uuidv4. unfold_M. simpl.
  destruct (N.leb_spec (10 * 1024 * 1024) (Multer.size p)) as [_|Hlt]; [|lia].
  unfold fs.unlink; simpl.
  destruct (unlink_fault env (unlink_calls w)); [reflexivity|].
  by rewrite lookup_insert_eq.
Qed.

(** The optimizer: its result is decided by the file at [imagePath]; it
    changes nothing but the log. *)
Lemma imageToBase64_eq (imagePath : filepath) (w : world) :
  imageToBase64 imagePath w =
  (match files imagePath.1 w !! imagePath.2 with
   | Some (Img i) => Return (toString_base64 (optimized i))
   | Some (Raw _) =>
       Throw (new_Error "Failed to process image: Input file contains unsupported image format")
   | None =>
       Throw (new_Error ("Failed to process image: Input file is missing: " ++ show_path imagePath))
   end,
   log (SharpInput imagePath) w).
Proof.
  unfold imageToBase64, sharp_toBuffer, sharp_input. unfold_M.
  destruct (files imagePath.1 w !! imagePath.2) as [[i|raw]|]; reflexivity.
Qed.

(** The external client: one request, logged; an error leaves as
    [AI processing failed: ...] around the message of its cause. *)
Lemma callOpenRouterAPI_world (env : environment) (b : base64) (w : world) :
  (callOpenRouterAPI env b w).2 = log (Fetched OPENROUTER_API_URL) w.
Proof.
  unfold callOpenRouterAPI, callOpenRouterAPI_try. unfold_M. simpl.
  destruct (fetch env _ _) as [r|e]; simpl; [|reflexivity].
  destruct (ok r); simpl.
  - destruct (json r) as [d|e]; simpl; [|reflexivity].
    destruct (get_prop d _) as [c|e]; simpl; [|reflexivity].
    destruct (get_index c _) as [c0|e]; simpl; [|reflexivity].
    destruct (get_prop c0 _) as [m|e]; simpl; [|reflexivity].
    destruct (get_prop m _) as [a|e]; reflexivity.
  - destruct (text r) as [t|e]; reflexivity.
Qed.

(** The materializer: a fresh identifier, one pass over the input, one
    file written into the artifact store. *)
Lemma processImageWithAI_eq (env : environment) (inputPath : filepath) (a : value) (w : world) :
  let out := "processed-" ++ uuid env (uuid_calls w) ++ ".jpg" in
  let w1 := log (SharpInput inputPath) (uuidv4 env w).2 in
  processImageWithAI env inputPath a w =
  match files inputPath.1 w !! inputPath.2 with
  | Some (Img i) =>
      match write_fault env with
      | None =>
          (Return {| filename := out; path := (processedDir, out); analysis := a |},
           log (SharpOutput (processedDir, out))
             (set_files processedDir (<[out := Img (enhanced i)]>) w1))
      | Some e => (Throw (new_Error ("Image processing failed: " ++ message e)), w1)
      end
  | Some (Raw _) =>
      (Throw (new_Error "Image processing failed: Input file contains unsupported image format"), w1)
  | None =>
      (Throw (new_Error ("Image processing failed: Input file is missing: " ++ show_path inputPath)), w1)
  end.
Proof.
  unfold processImageWithAI, sharp_toFile, sharp_input, uuidv4. unfold_M. simpl.
  replace (files inputPath.1 _ !! inputPath.2) with (files inputPath.1 w !! inputPath.2)
    by (destruct inputPath as [[] ?]; reflexivity).
  destruct (files inputPath.1 w !! inputPath.2) as [[i|raw]|]; try reflexivity.
  destruct (write_fault env); reflexivity.
Qed.

(** What the disk storage wrote is there when the handler starts. *)
Lemma intake_lookup (env : environment) (w : world) (p : Multer.part) :
  uploads (intake env w p) !! (transient env w p).2 = Some (Multer.data p).
Proof. unfold intake, Multer.store; simpl. apply lookup_insert_eq. Qed.

(** ** The handler along its paths *)

Lemma count_app (f : event → bool) (l1 l2 : list event) :
  count f (l1 ++ l2) = (count f l1 + count f l2)%nat.
Proof. unfold count. by rewrite List.filter_app, length_app. Qed.

Lemma steady_refl (p : filepath) (w : world) : steady p w w.
Proof. repeat split. by exists []. Qed.

Lemma steady_trans (p : filepath) (w1 w2 w3 : world) :
  steady p w1 w2 → steady p w2 w3 → steady p w1 w3.
Proof.
  intros (Hu1 & Hc1 & evs1 & Ht1 & Hn1) (Hu2 & Hc2 & evs2 & Ht2 & Hn2).
  split; [congruence|]. split; [congruence|].
  exists (evs2 ++ evs1)%list. split.
  - by rewrite Ht2, Ht1, app_assoc.
  - rewrite count_app. lia.
Qed.

Lemma steady_log (p : filepath) (ev : event) (w w' : world) :
  is_unlink p ev = false → steady p w w' → steady p w (log ev w').
Proof.
  intros Hev H. apply steady_trans with w'; [done|].
  repeat split. exists [ev]. split; [reflexivity|].
  unfold count; simpl. by rewrite Hev.
Qed.

Lemma steady_uuidv4 (env : environment) (p : filepath) (w w' : world) :
  steady p w w' → steady p w (uuidv4 env w').2.
Proof. intros H. apply steady_trans with w'; [done|]. repeat split. by exists []. Qed.

Lemma steady_artifact (p : filepath) (f : gmap string content → gmap string content)
    (w w' : world) :
  steady p w w' → steady p w (set_files processedDir f w').
Proof. intros H. apply steady_trans with w'; [done|]. repeat split. by exists []. Qed.

Ltac steady :=
  repeat first
    [ apply steady_refl
    | apply steady_log; [reflexivity|]
    | apply steady_uuidv4
    | apply steady_artifact ].

(** The [catch] block always answers, with the failure body of the error
    it caught, whatever becomes of its own unlink. *)
Lemma repair_catch_eq (env : environment) (f : Multer.file) (e : error) (w : world) :
  repair_catch env (Some f) e w =
  (Return (res_json 500 (failure_body env e)), (fs.unlink env (Multer.path f) w).2).
Proof.
  unfold repair_catch. unfold_M.
  destruct (fs.unlink env (Multer.path f) w) as [[[]|ce] w']; reflexivity.
Qed.

Lemma unlink_present (env : environment) (p : filepath) (w : world) (c : content) :
  files p.1 w !! p.2 = Some c →
  fs.unlink env p w =
  match unlink_fault env (unlink_calls w) with
  | Some e => (Throw e, log (Unlinked p false) (fs.bump_unlink w))
  | None => (Return (), log (Unlinked p true) (set_files p.1 (delete p.2) (fs.bump_unlink w)))
  end.
Proof. intros H. unfold fs.unlink. by rewrite H. Qed.




(** ** C1: release of the transient input *)

(** An upload that was stored and then refused for its size: the
    middleware unlinks it, once. *)
Lemma too_large_paths (env : environment) (w : world) (p : Multer.part) :
  stored p → (10 * 1024 * 1024 <= Multer.size p)%N →
  let target := transient env w p in
  let w' := (post_repair_image env (Some p) w).2 in
  match unlink_fault env (unlink_calls w) with
  | None => since w w' = [Unlinked target true; Stored target] ∧ uploads w' !! target.2 = None
  | Some _ => since w w' = [Unlinked target false; Stored target]
  end.
Proof.
  intros Hst Hsize target w'. subst w'. unfold post_repair_image.
  rewrite single_too_large by done. fold target. unfold cleanup. simpl.
  erewrite unlink_present by apply intake_lookup.
  change (unlink_calls (intake env w p)) with (unlink_calls w).
  destruct (unlink_fault env (unlink_calls w)) as [ue|]; simpl.
  - by apply since_app.
  - split; [by apply since_app | apply lookup_delete_eq].
Qed.


Lemma scan_stored : stored Sample.scan.
Proof. split; [by vm_compute | reflexivity]. Defined.

Lemma scan_accepted : accepted Sample.scan.
Proof. split; [exact scan_stored | by vm_compute]. Defined.

Lemma huge_scan_stored : stored Sample.huge_scan.
Proof. split; [by vm_compute | reflexivity]. Defined.


(** The same for an upload that reaches the handler. *)
Example scan_released : deleted_exactly_once Sample.calm Sample.start Sample.scan.
Proof. split; reflexivity. Qed.


(** On the success path a refused unlink is followed by the unlink of the
    [catch] block: two calls on the same file in one request. *)
Example unlink_called_twice :
  let env := {| NODE_ENV := None; uuid := Sample.ids; uuid_plain := Sample.ids_plain; now := 0;
                fetch := fetch Sample.calm; write_fault := None;
                unlink_fault := λ n, match n with O => Some Sample.EPERM | _ => None end |} in
  since Sample.start (post_repair_image env (Some Sample.scan) Sample.start).2
  = [ Unlinked (uploadsDir, "id0-0.png") true;
      Unlinked (uploadsDir, "id0-0.png") false;
      SharpOutput (processedDir, "processed-id1.jpg");
      SharpInput (uploadsDir, "id0-0.png");
      Fetched OPENROUTER_API_URL;
      SharpInput (uploadsDir, "id0-0.png");
      Stored (uploadsDir, "id0-0.png") ].
Proof. reflexivity. Qed.

(** ** C2: uploads that are not images *)

(** Whatever is not declared as [image/...] is refused by the file filter
    before anything is stored; the error handling middleware then answers
    with its catch-all 500. *)
Lemma not_image_refused (env : environment) (w : world) (p : Multer.part) :
  Multer.basename (Multer.originalname p) ≠ "" →
  String.prefix "image/" (Multer.mimetype p) = false →
  post_repair_image env (Some p) w
  = (Some (res_json 500 (Obj [ ("error", Str "Internal server error");
                               ("message", Str "Something went wrong processing your request") ])),
     w).
Proof.
  intros Hname Hmime. unfold post_repair_image. by rewrite single_not_image.
Qed.

(** A part that the parser reports without a name is no file for the
    middleware: the handler runs without [req.file]. *)
Lemma unnamed_answer (env : environment) (w : world) (p : Multer.part) :
  Multer.basename (Multer.originalname p) = "" →
  post_repair_image env (Some p) w
  = (Some (res_json 400 (Obj [ ("error", Str "No image file provided");
                               ("message", Str "Please upload an image file") ])),
     w).
Proof.
  intros Hname. unfold post_repair_image. by rewrite single_unnamed.
Qed.

(** C2.  A text file sent as [text/plain] leaves no file behind, but the
    answer is the 500 "Internal server error" of the error middleware, not
    a 400-class validation error: the error of the file filter is not a
    [MulterError], and only [LIMIT_FILE_SIZE] is mapped to 400. *)
Theorem non_image_upload_answered_500 :
  post_repair_image Sample.calm (Some Sample.notes) Sample.start
  = (Some (res_json 500 (Obj [ ("error", Str "Internal server error");
                               ("message", Str "Something went wrong processing your request") ])),
     Sample.start)
  ∧ ¬ rejected_as_invalid Sample.calm Sample.start Sample.notes.
Proof.
  split; [by apply not_image_refused|].
  unfold rejected_as_invalid. rewrite not_image_refused by done.
  intros [(s & Hs & Hrange) _]. simpl in Hs. injection Hs as <-. lia.
Qed.

(** ** C6: uploads over the size limit *)

(** C6, as amended.  An upload of more than 10 MB that has a file name
    and is declared as an image is answered with 400 "File too large" and
    no image pass runs; an upload of more than 10 MB of any kind is
    refused (400 or 500) before any image pass runs. *)
Theorem oversized_upload_rejected (env : environment) (w : world) (p : Multer.part) :
  (10 * 1024 * 1024 < Multer.size p)%N →
  (stored p → rejected_as_too_large env w p) ∧
  (let '(res, w') := post_repair_image env (Some p) w in
   (status_of res = Some 400 ∨ status_of res = Some 500) ∧
   count is_image_pass (since w w') = 0%nat).
Proof.
  intros Hsize.
  assert (Himage : stored p → rejected_as_too_large env w p).
  { intros Hst.
    assert (Hbig : (10 * 1024 * 1024 <= Multer.size p)%N) by lia.
    pose proof (too_large_paths env w p Hst Hbig) as Hpath. cbv zeta in Hpath.
    unfold rejected_as_too_large, post_repair_image in *.
    rewrite single_too_large in * by done. split; [reflexivity|].
    simpl in Hpath.
    destruct (unlink_fault env (unlink_calls w)); [|destruct Hpath as [Hpath _]];
      by rewrite Hpath. }
  split; [exact Himage|].
  destruct (String.eqb_spec (Multer.basename (Multer.originalname p)) "") as [Hnone|Hname].
  { rewrite unnamed_answer by done. split; [by left|]. by rewrite (since_app w w []). }
  destruct (String.prefix "image/" (Multer.mimetype p)) eqn:Hmime.
  - assert (Hst : stored p) by done.
    specialize (Himage Hst). unfold rejected_as_too_large in Himage.
    destruct (post_repair_image env (Some p) w) as [res w'].
    destruct Himage as [-> Hcount]. split; [by left | done].
  - rewrite not_image_refused by done. split; [by right|].
    by rewrite (since_app w w []).
Qed.

Lemma oversized_upload_rejected_witness :
  (10 * 1024 * 1024 < Multer.size Sample.huge_scan)%N ∧
  stored Sample.huge_scan ∧
  rejected_as_too_large Sample.calm Sample.start Sample.huge_scan.
Proof.
  assert (Hsize : (10 * 1024 * 1024 < Multer.size Sample.huge_scan)%N) by (by vm_compute).
  split; [exact Hsize|]. split; [exact huge_scan_stored|].
  exact (proj1 (oversized_upload_rejected Sample.calm Sample.start Sample.huge_scan Hsize)
           huge_scan_stored).
Defined.

(** C6, as written, fails: 11 MB declared as [text/plain] are refused by
    the file filter, which runs before the size limit; the answer is the
    500 of the error middleware, not "File too large". *)
Lemma oversized_text_not_too_large :
  (10 * 1024 * 1024 < Multer.size Sample.huge_notes)%N ∧
  ¬ rejected_as_too_large Sample.calm Sample.start Sample.huge_notes.
Proof.
  split; [by vm_compute|].
  unfold rejected_as_too_large. rewrite not_image_refused by done.
  intros [H _]. discriminate H.
Qed.

(** Nor is a part of 11 MB that the parser reports without a name: the
    middleware passes it over, and the handler answers that no file was
    provided. *)
Example oversized_unnamed_not_too_large :
  let part := {| Multer.originalname := ".."; Multer.mimetype := "image/png";
                 Multer.size := 11 * 1024 * 1024; Multer.data := Img Sample.photo |} in
  post_repair_image Sample.calm (Some part) Sample.start
  = (Some (res_json 400 (Obj [ ("error", Str "No image file provided");
                               ("message", Str "Please upload an image file") ])),
     Sample.start).
Proof. reflexivity. Qed.

(** ** C3: failures of the external analysis *)






(** The external client wraps the error of its [try] block. *)
Lemma callOpenRouterAPI_catch (env : environment) (b : base64) (w : world) :
  (callOpenRouterAPI env b w).1 =
  match (callOpenRouterAPI_try env b w).1 with
  | Return a => Return a
  | Throw e => Throw (new_Error ("AI processing failed: " ++ message e))
  end.
Proof.
  unfold callOpenRouterAPI, try_catch, throw.
  by destruct (callOpenRouterAPI_try env b w) as [[a|e] w'].
Qed.





(** ** C4: the optimizer *)

(** C4.  On a file that decodes, [imageToBase64] returns the picture
    re-encoded as JPEG at quality 85, within 1024 x 1024 and in neither
    dimension larger than the source; on a file that does not decode (or is
    not there) it throws [Failed to process image: ...]. *)
Theorem optimizer_contract (imagePath : filepath) (w : world) :
  match files imagePath.1 w !! imagePath.2 with
  | Some (Img i) =>
      ∃ out,
        imageToBase64 imagePath w = (Return (toString_base64 out), log (SharpInput imagePath) w) ∧
        fits_within 1024 1024 out ∧
        (width out <= width i)%positive ∧ (height out <= height i)%positive ∧
        encoding out = JPEG ∧ quality out = Some 85%N ∧
        scene out = scene i
  | _ =>
      ∃ cause,
        imageToBase64 imagePath w
        = (Throw (new_Error ("Failed to process image: " ++ cause)), log (SharpInput imagePath) w)
  end.
Proof.
  rewrite imageToBase64_eq.
  destruct (files imagePath.1 w !! imagePath.2) as [[i|raw]|].
  - exists (optimized i). pose proof (optimized_spec i). intuition.
  - by eexists.
  - by eexists.
Qed.

(** The 2000 x 1500 scan leaves the optimizer as 1024 x 768. *)
Example optimizer_on_scan :
  (width (optimized Sample.photo), height (optimized Sample.photo)) = (1024%positive, 768%positive).
Proof. reflexivity. Qed.

(** An accepted upload that does not decode is answered with 500. *)
Example undecodable_upload_answered_500 :
  let part := {| Multer.originalname := "notes.jpg"; Multer.mimetype := "image/jpeg";
                 Multer.size := 30; Multer.data := Raw "not a picture" |} in
  (post_repair_image Sample.calm (Some part) Sample.start).1
  = Some (res_json 500 (Obj [ ("error", Str "Image processing failed");
                              ("message", Str "Failed to process image: Input file contains unsupported image format");
                              ("details", Undefined) ])).
Proof. reflexivity. Qed.

(** ** C8: the materializer *)

Lemma append_length (a b : string) :
  String.length (a ++ b) = (String.length a + String.length b)%nat.
Proof. induction a as [|c a IH]; simpl; [reflexivity | by rewrite IH]. Qed.

Lemma append_cancel_r (a b s : string) : a ++ s = b ++ s → a = b.
Proof.
  revert b. induction a as [|c a IH]; intros [|d b] H; simpl in H.
  - reflexivity.
  - apply (f_equal String.length) in H. rewrite !append_length in H. simpl in H. lia.
  - apply (f_equal String.length) in H. rewrite !append_length in H. simpl in H. lia.
  - injection H as -> H. f_equal. by apply IH.
Qed.

(** Distinct identifiers give distinct artifact names. *)
Lemma output_filename_inj (id1 id2 : string) :
  "processed-" ++ id1 ++ ".jpg" = "processed-" ++ id2 ++ ".jpg" → id1 = id2.
Proof.
  intros H. apply (inj (String.append "processed-")) in H. by apply append_cancel_r in H.
Qed.

(** C8.  Given the transient input picture and the analysis,
    [processImageWithAI] draws a fresh identifier, runs the enhancement
    pass (fit inside 2048 x 2048 without enlargement, sharpen, brightness
    1.1 and saturation 1.2, JPEG at quality 95), writes the result into the
    artifact store under [processed-<identifier>.jpg] and returns that name
    with the analysis; when the library cannot write, it throws
    [Image processing failed: ...] and the artifact store is unchanged. *)
Theorem materializer_contract (env : environment) (w : world) (inputPath : filepath)
    (i : image) (analysisResult : value) :
  files inputPath.1 w !! inputPath.2 = Some (Img i) →
  let out := "processed-" ++ uuid env (uuid_calls w) ++ ".jpg" in
  let '(res, w') := processImageWithAI env inputPath analysisResult w in
  match write_fault env with
  | None =>
      res = Return {| filename := out; path := (processedDir, out); analysis := analysisResult |} ∧
      processed w' = <[out := Img (enhanced i)]> (processed w) ∧
      uploads w' = uploads w ∧
      uuid_calls w' = S (uuid_calls w) ∧
      (∀ id, "processed-" ++ id ++ ".jpg" = out → id = uuid env (uuid_calls w)) ∧
      fits_within 2048 2048 (enhanced i) ∧
      (width (enhanced i) <= width i)%positive ∧
      (height (enhanced i) <= height i)%positive ∧
      scene (enhanced i) = scene i ∧
      edits (enhanced i) = (edits i ++ [Sharpened; Modulated (11 # 10) (12 # 10) 0])%list ∧
      encoding (enhanced i) = JPEG ∧ quality (enhanced i) = Some 95%N
  | Some e =>
      res = Throw (new_Error ("Image processing failed: " ++ message e)) ∧
      processed w' = processed w ∧ uploads w' = uploads w
  end.
Proof.
  intros Hfile out. rewrite processImageWithAI_eq, Hfile.
  destruct (write_fault env) as [e|].
  - repeat split.
  - pose proof (enhanced_spec i) as (Hfit & Hw & Hh & Henc & Hq & Hscene & Hedits).
    repeat split; try done.
    + intros id Hid. by apply output_filename_inj.
    + apply Hfit.
    + apply Hfit.
Qed.

(** A full disk: the request is answered with 500, no artifact appears and
    the transient input is removed. *)
Example write_failure_answered_500 :
  let '(res, w') := post_repair_image Sample.full_disk (Some Sample.scan) Sample.start in
  field "message" res = Str "Image processing failed: ENOSPC: no space left on device, write" ∧
  status_of res = Some 500 ∧ processed w' = ∅ ∧ uploads w' = ∅.
Proof. vm_compute. done. Qed.

Lemma materializer_contract_witness :
  files uploadsDir (intake Sample.calm Sample.start Sample.scan) !! "id0-1700000000000.png"
  = Some (Img Sample.photo) ∧
  (processImageWithAI Sample.calm (uploadsDir, "id0-1700000000000.png") (Str "restore plan X")
     (intake Sample.calm Sample.start Sample.scan)).1
  = Return {| filename := "processed-id1.jpg"; path := (processedDir, "processed-id1.jpg");
              analysis := Str "restore plan X" |}.
Proof.
  assert (Hfile : files uploadsDir (intake Sample.calm Sample.start Sample.scan)
                    !! "id0-1700000000000.png" = Some (Img Sample.photo)) by reflexivity.
  split; [exact Hfile|].
  pose proof (materializer_contract Sample.calm (intake Sample.calm Sample.start Sample.scan)
                (uploadsDir, "id0-1700000000000.png") Sample.photo (Str "restore plan X") Hfile) as H.
  simpl in H.
  destruct (processImageWithAI _ _ _ _) as [res w'].
  exact (proj1 H).
Defined.

(** ** Paths and the retrieval of plain names *)

Lemma mentions_app (c : ascii) (a b : string) :
  Path.mentions c (a ++ b) = Path.mentions c a || Path.mentions c b.
Proof. induction a as [|c' a IH]; simpl; [done|]. by rewrite IH, orb_assoc. Qed.

Lemma plain_app (a b : string) : Path.plain (a ++ b) = Path.plain a && Path.plain b.
Proof.
  unfold Path.plain. rewrite !mentions_app.
  by destruct (Path.mentions "/" a), (Path.mentions "/" b),
    (Path.mentions Ascii.zero a), (Path.mentions Ascii.zero b).
Qed.

Lemma split_plain (s : string) : Path.mentions "/" s = false → Path.split s = [s].
Proof.
  induction s as [|c s IH]; simpl; [done|]. intros H.
  apply orb_false_iff in H as [Hc Hs]. by rewrite Hc, IH.
Qed.

Lemma trailing_plain (s : string) : Path.mentions "/" s = false → Path.trailing s = false.
Proof.
  induction s as [|c s IH]; simpl; [done|]. intros H.
  apply orb_false_iff in H as [Hc Hs]. destruct s; [exact Hc | by apply IH].
Qed.

Lemma strip_app (base rest : list string) : Path.strip base (base ++ rest)%list = Some rest.
Proof. induction base as [|b base IH]; simpl; [done|]. by rewrite String.eqb_refl. Qed.

Lemma beyond_app (base rest : list string) : Path.beyond base (base ++ rest)%list = rest.
Proof. induction base as [|b base IH]; simpl; [done|]. by rewrite String.eqb_refl. Qed.

Lemma visible_spec (name : string) :
  visible name = true →
  Path.mentions "/" name = false ∧ Path.mentions Ascii.zero name = false ∧
  Path.hidden name = false ∧
  String.eqb name "" = false ∧ String.eqb name "." = false ∧ String.eqb name ".." = false.
Proof.
  unfold visible, Path.plain. intros H.
  apply andb_true_iff in H as [H Hne]. apply andb_true_iff in H as [H Hdot].
  apply andb_true_iff in H as [Hsep Hnul].
  apply negb_true_iff in Hne, Hdot, Hsep, Hnul.
  repeat split; try done.
  - destruct name as [|c [|c' s]]; simpl; try done.
    destruct (Ascii.eqb_spec c "."); [subst; simpl in Hdot; discriminate | done].
  - destruct (String.eqb_spec name "."); [subst; discriminate | done].
  - destruct (String.eqb_spec name ".."); [subst; discriminate | done].
Qed.

(** The name of an artifact is a visible segment. *)
Lemma output_name_visible (env : environment) (n : nat) :
  visible ("processed-" ++ uuid env n ++ ".jpg") = true.
Proof.
  unfold visible. rewrite !plain_app, (uuid_plain env n). reflexivity.
Qed.

(** For a name that is one visible segment the retrieval endpoint looks
    into the artifact store and nowhere else. *)
Lemma get_processed_eq (name : string) (w : world) :
  visible name = true →
  get_processed name w =
  match processed w !! name with
  | Some c =>
      (Some {| status := 200;
               headers := [ ("Content-Type", "image/jpeg");
                            ("Cache-Control", "public, max-age=86400") ];
               body := file_body c |}, w)
  | None =>
      (Some (res_json 404 (Obj [ ("error", Str "Image not found");
                                 ("message", Str "The requested processed image does not exist") ])),
       w)
  end.
Proof.
  intros Hv. destruct (visible_spec name Hv) as (Hsep & Hnul & Hhid & Hne & Hdot & Hup).
  assert (Hjoin : Path.join (dir_path w processedDir) name
                  = (dirname w ++ ["processed"; name])%list).
  { unfold Path.join, dir_path. rewrite split_plain by done. simpl.
    unfold Path.enter. rewrite Hne, Hdot, Hup. simpl. by rewrite <- app_assoc. }
  assert (Hstat : fs.stat w (dirname w ++ ["processed"; name])%list
                  = regular <$> processed w !! name).
  { unfold fs.stat. by rewrite strip_app. }
  unfold get_processed, serve_processed, fs.access, sendFile, path_join. unfold_M.
  cbn [segments trailing_slash has_nul].
  rewrite Hjoin, Hnul, Hstat, (trailing_plain name Hsep).
  destruct (processed w !! name) as [c|] eqn:E; simpl; [|reflexivity].
  rewrite beyond_app. cbn [existsb]. rewrite Hhid. simpl.
  by rewrite Hstat.
Qed.

(** ** C5: the answer to a successful run *)

(** The middleware hands a file to the handler only for an accepted
    upload, stored under its transient name. *)
Lemma single_some (env : environment) (form : option Multer.part) (w w1 : world)
    (f : Multer.file) :
  Multer.single (upload env) form w = (Return (Some f), w1) →
  ∃ p, form = Some p ∧ accepted p ∧ f = intake_file env w p ∧ w1 = intake env w p.
Proof.
  destruct form as [p|]; [|discriminate].
  intros H. exists p. split; [reflexivity|].
  destruct (String.eqb_spec (Multer.basename (Multer.originalname p)) "") as [Hnone|Hname].
  { rewrite single_unnamed in H by done. discriminate. }
  destruct (String.prefix "image/" (Multer.mimetype p)) eqn:Hmime.
  - destruct (N.leb_spec (10 * 1024 * 1024) (Multer.size p)) as [Hle|Hlt].
    + rewrite single_too_large in H by done. discriminate.
    + assert (Hacc : accepted p) by done.
      rewrite (single_accepted env w p Hacc) in H. by injection H as <- <-.
  - rewrite single_not_image in H by done. discriminate.
Qed.

(** C5, as amended.  When the upload was stored, the optimizer succeeds,
    the external analysis returns a text, and the materializer and the
    unlink succeed, the endpoint answers 200 with a JSON body of exactly
    five fields, in the object that is sent and in what the client
    receives of it: [success] (true), [processedImageUrl] (the retrieval
    path of the artifact), [analysis] (the text the external analysis
    returned), [originalFilename] (the base name of the file name the
    client gave) and [processedFilename] (the name of the artifact); the
    artifact is then served by the retrieval endpoint. *)
Theorem success_response_shape (env : environment) (form : option Multer.part)
    (w w1 w2 w3 w4 w5 : world) (f : Multer.file) (b : base64) (text : string)
    (r : processed_result) :
  Multer.single (upload env) form w = (Return (Some f), w1) →
  imageToBase64 (Multer.path f) w1 = (Return b, w2) →
  callOpenRouterAPI env b w2 = (Return (Str text), w3) →
  processImageWithAI env (Multer.path f) (Str text) w3 = (Return r, w4) →
  fs.unlink env (Multer.path f) w4 = (Return (), w5) →
  let answer := Obj [ ("success", Bool true);
                      ("processedImageUrl", Str ("/api/processed/" ++ filename r));
                      ("analysis", Str text);
                      ("originalFilename", Str (Multer.file_originalname f));
                      ("processedFilename", Str (filename r)) ] in
  post_repair_image env form w
  = (Some {| status := 200; headers := []; body := json_body answer |}, w5) ∧
  received (post_repair_image env form w).1 = answer ∧
  five_fields (post_repair_image env form w).1 ∧
  (∃ p, form = Some p ∧
        Multer.file_originalname f = Multer.basename (Multer.originalname p)) ∧
  (∃ artifact,
     processed w5 !! filename r = Some (Img artifact) ∧
     (get_processed (filename r) w5).1
     = Some {| status := 200;
               headers := [ ("Content-Type", "image/jpeg");
                            ("Cache-Control", "public, max-age=86400") ];
               body := file_body (Img artifact) |}).
Proof.
  intros Hsingle Hopt Hcall Hmat Hunlink answer.
  assert (Hanalysis : analysis r = Str text ∧ visible (filename r) = true ∧
            ∃ artifact, processed w4 !! filename r = Some (Img artifact)).
  { rewrite processImageWithAI_eq in Hmat.
    destruct (files _ _ !! _) as [[i|raw]|]; try discriminate.
    destruct (write_fault env); [discriminate|].
    injection Hmat as <- <-. split; [reflexivity|].
    split; [apply output_name_visible|].
    exists (enhanced i). simpl. apply lookup_insert_eq. }
  destruct Hanalysis as (Ha & Hvis & artifact & Hart).
  assert (Heq : post_repair_image env form w
                = (Some {| status := 200; headers := []; body := json_body answer |}, w5)).
  { unfold post_repair_image. rewrite Hsingle.
    unfold repair_image, repair_try. unfold_M.
    rewrite Hopt, Hcall, Hmat, Hunlink. by rewrite Ha. }
  split; [exact Heq|]. rewrite Heq.
  split; [reflexivity|].
  split; [split; [reflexivity|]; by eexists _, _, _, _|].
  split.
  - destruct (single_some _ _ _ _ _ Hsingle) as (p & -> & _ & -> & _). by exists p.
  - destruct (single_some _ _ _ _ _ Hsingle) as (p & _ & _ & -> & _).
    assert (Hkeep : processed w5 = processed w4).
    { unfold fs.unlink in Hunlink. simpl in Hunlink.
      destruct (unlink_fault env _); [discriminate|].
      destruct (uploads w4 !! _); [|discriminate].
      by injection Hunlink as <-. }
    exists artifact. rewrite Hkeep. split; [exact Hart|].
    rewrite get_processed_eq by exact Hvis. by rewrite Hkeep, Hart.
Qed.

Lemma success_response_shape_witness :
  let env := Sample.calm in
  let w := Sample.start in
  let f := intake_file env w Sample.scan in
  let w1 := intake env w Sample.scan in
  let b := toString_base64 (optimized Sample.photo) in
  let w2 := (imageToBase64 (Multer.path f) w1).2 in
  let w3 := (callOpenRouterAPI env b w2).2 in
  let r := {| filename := "processed-id1.jpg"; path := (processedDir, "processed-id1.jpg");
              analysis := Str "restore plan X" |} in
  let w4 := (processImageWithAI env (Multer.path f) (Str "restore plan X") w3).2 in
  let w5 := (fs.unlink env (Multer.path f) w4).2 in
  Multer.single (upload env) (Some Sample.scan) w = (Return (Some f), w1) ∧
  imageToBase64 (Multer.path f) w1 = (Return b, w2) ∧
  callOpenRouterAPI env b w2 = (Return (Str "restore plan X"), w3) ∧
  processImageWithAI env (Multer.path f) (Str "restore plan X") w3 = (Return r, w4) ∧
  fs.unlink env (Multer.path f) w4 = (Return (), w5) ∧
  (post_repair_image env (Some Sample.scan) w).1
  = Some (res_json 200
            (Obj [ ("success", Bool true);
                   ("processedImageUrl", Str "/api/processed/processed-id1.jpg");
                   ("analysis", Str "restore plan X");
                   ("originalFilename", Str "grandma.png");
                   ("processedFilename", Str "processed-id1.jpg") ])).
Proof.
  intros env w f w1 b w2 w3 r w4 w5.
  assert (H1 : Multer.single (upload env) (Some Sample.scan) w = (Return (Some f), w1))
    by reflexivity.
  assert (H2 : imageToBase64 (Multer.path f) w1 = (Return b, w2)) by reflexivity.
  assert (H3 : callOpenRouterAPI env b w2 = (Return (Str "restore plan X"), w3)) by reflexivity.
  assert (H4 : processImageWithAI env (Multer.path f) (Str "restore plan X") w3 = (Return r, w4))
    by reflexivity.
  assert (H5 : fs.unlink env (Multer.path f) w4 = (Return (), w5)) by reflexivity.
  repeat (split; [assumption|]).
  rewrite (proj1 (success_response_shape env (Some Sample.scan) w w1 w2 w3 w4 w5 f b _ r
                    H1 H2 H3 H4 H5)).
  reflexivity.
Defined.

(** C5, as written, fails: the upstream answers with a message that has no
    content.  Every step of the pipeline succeeds and the request is
    answered with 200, but the analysis is [undefined], and the body that
    is sent has four fields: there is no [analysis] in it. *)
Lemma analysis_missing_from_answer :
  let env := Sample.terse in
  let w := Sample.start in
  let f := intake_file env w Sample.scan in
  let w1 := intake env w Sample.scan in
  let b := toString_base64 (optimized Sample.photo) in
  let w2 := (imageToBase64 (Multer.path f) w1).2 in
  let w3 := (callOpenRouterAPI env b w2).2 in
  let r := {| filename := "processed-id1.jpg"; path := (processedDir, "processed-id1.jpg");
              analysis := Undefined |} in
  let w4 := (processImageWithAI env (Multer.path f) Undefined w3).2 in
  let w5 := (fs.unlink env (Multer.path f) w4).2 in
  Multer.single (upload env) (Some Sample.scan) w = (Return (Some f), w1) ∧
  imageToBase64 (Multer.path f) w1 = (Return b, w2) ∧
  callOpenRouterAPI env b w2 = (Return Undefined, w3) ∧
  processImageWithAI env (Multer.path f) Undefined w3 = (Return r, w4) ∧
  fs.unlink env (Multer.path f) w4 = (Return (), w5) ∧
  status_of (post_repair_image env (Some Sample.scan) w).1 = Some 200 ∧
  received (post_repair_image env (Some Sample.scan) w).1
  = Obj [ ("success", Bool true);
          ("processedImageUrl", Str "/api/processed/processed-id1.jpg");
          ("originalFilename", Str "grandma.png");
          ("processedFilename", Str "processed-id1.jpg") ] ∧
  ¬ five_fields (post_repair_image env (Some Sample.scan) w).1.
Proof.
  intros env w f w1 b w2 w3 r w4 w5.
  repeat (split; [reflexivity|]).
  intros [_ (url & text & original & name & H)].
  vm_compute in H. discriminate H.
Qed.

(** ** C7: retrieval of artifacts *)

(** C7.  The name in the request is joined onto the directory of the
    artifacts and the result is served, wherever it leads: asked for
    [../server.js] (sent as [..%2Fserver.js]), the endpoint answers 200 with
    [Content-Type: image/jpeg] and the source of the server, although the
    artifact store has no file of that name, where the claim has a 404. *)
Theorem traversal_serves_server_source :
  processed Sample.start !! "../server.js" = None ∧
  get_processed "../server.js" Sample.start
  = (Some {| status := 200;
             headers := [ ("Content-Type", "image/jpeg");
                          ("Cache-Control", "public, max-age=86400") ];
             body := file_body Sample.source |},
     Sample.start) ∧
  ¬ retrieval_as_claimed Sample.start "../server.js".
Proof.
  split; [reflexivity|]. split; [reflexivity|].
  unfold retrieval_as_claimed. intros [H _]. vm_compute in H. discriminate H.
Qed.

(** The same request reaches the uploads that are waiting in the transient
    store: here the one a refused unlink left behind. *)
Example traversal_serves_pending_upload :
  let w := (post_repair_image Sample.stuck (Some Sample.scan) Sample.start).2 in
  processed w = ∅ ∧
  (get_processed "../uploads/id0-1700000000000.png" w).1
  = Some {| status := 200;
            headers := [ ("Content-Type", "image/jpeg");
                         ("Cache-Control", "public, max-age=86400") ];
            body := file_body (Img Sample.photo) |}.
Proof. split; reflexivity. Qed.

(** What is not a regular file with a visible path is not sent: a hidden
    file ends in the error handling middleware, a directory in the 404
    handler, and a name that leads nowhere in the 404 of the endpoint. *)
Example traversal_refused :
  status_of (get_processed "../.env" Sample.start).1 = Some 500 ∧
  (get_processed "../node_modules" Sample.start).1
  = Some (after_headers [ ("Content-Type", "image/jpeg");
                          ("Cache-Control", "public, max-age=86400") ] not_found_handler) ∧
  (get_processed "../package.json" Sample.start).1
  = Some (res_json 404 (Obj [ ("error", Str "Image not found");
                              ("message", Str "The requested processed image does not exist") ])).
Proof. repeat split; reflexivity. Qed.

(** ** C9 and C10: errors at the boundary of the endpoint *)

Lemma node_env_is_spec (env : environment) (mode : string) :
  node_env_is env mode = true ↔ NODE_ENV env = Some mode.
Proof.
  unfold node_env_is. destruct (NODE_ENV env) as [v|]; [|done].
  rewrite String.eqb_eq. split; congruence.
Qed.

(** The handler never rejects: every error of the [try] block is answered
    by the [catch] block. *)
Lemma repair_image_answers (env : environment) (req_file : option Multer.file) (w : world) :
  ∃ res w', repair_image env req_file w = (Return res, w').
Proof.
  unfold repair_image, try_catch.
  destruct (repair_try env req_file w) as [[res|e] w1]; [by eauto|].
  destruct req_file as [f|]; [rewrite repair_catch_eq; by eauto|].
  unfold repair_catch. unfold_M. by eauto.
Qed.

Lemma repair_image_throws (env : environment) (req_file : option Multer.file)
    (w w2 : world) (e : error) :
  repair_try env req_file w = (Throw e, w2) →
  ∃ w', repair_image env req_file w = (Return (res_json 500 (failure_body env e)), w').
Proof.
  intros Htry. unfold repair_image, try_catch. rewrite Htry.
  destruct req_file as [f|]; [rewrite repair_catch_eq; by eauto|].
  unfold repair_catch. unfold_M. by eauto.
Qed.

(** C9.  Once the middleware has let the request through, the endpoint
    always answers; and an error [e] thrown by any step of the pipeline is
    answered with status 500 and a JSON body with the fields [error],
    [message] (the message of [e]) and [details], where [details] carries
    the stack of [e] only if [NODE_ENV] is [development], hence never in
    production. *)
Theorem pipeline_errors_reported (env : environment) (form : option Multer.part)
    (w w1 : world) (req_file : option Multer.file) :
  Multer.single (upload env) form w = (Return req_file, w1) →
  (∃ res w', post_repair_image env form w = (Some res, w')) ∧
  (∀ e w2, repair_try env req_file w1 = (Throw e, w2) →
     ∃ w',
       post_repair_image env form w = (Some (res_json 500 (failure_body env e)), w') ∧
       keys (failure_body env e) = ["error"; "message"; "details"] ∧
       field "error" (Some (res_json 500 (failure_body env e))) = Str "Image processing failed" ∧
       field "message" (Some (res_json 500 (failure_body env e))) = Str (message e) ∧
       (field "details" (Some (res_json 500 (failure_body env e))) ≠ Undefined →
        NODE_ENV env = Some "development" ∧
        field "details" (Some (res_json 500 (failure_body env e))) = Str (stack e)) ∧
       (NODE_ENV env = Some "production" →
        field "details" (Some (res_json 500 (failure_body env e))) = Undefined)).
Proof.
  intros Hsingle. unfold post_repair_image. rewrite Hsingle. split.
  - destruct (repair_image_answers env req_file w1) as (res & w' & ->). by eauto.
  - intros e w2 Htry.
    destruct (repair_image_throws env req_file w1 w2 e Htry) as (w' & ->).
    exists w'. split; [reflexivity|]. split; [reflexivity|].
    split; [reflexivity|]. split; [reflexivity|].
    simpl. destruct (node_env_is env "development") eqn:Hdev.
    + apply node_env_is_spec in Hdev. split; [done|]. intros Hprod. congruence.
    + split; [done|]. done.
Qed.

Lemma pipeline_errors_reported_witness :
  let env := Sample.throttled in
  let w := Sample.start in
  let f := intake_file env w Sample.scan in
  let w1 := intake env w Sample.scan in
  let e := new_Error "AI processing failed: OpenRouter API error: 429 - rate limited" in
  Multer.single (upload env) (Some Sample.scan) w = (Return (Some f), w1) ∧
  repair_try env (Some f) w1 = (Throw e, (repair_try env (Some f) w1).2) ∧
  (post_repair_image env (Some Sample.scan) w).1
  = Some (res_json 500
            (Obj [ ("error", Str "Image processing failed");
                   ("message", Str "AI processing failed: OpenRouter API error: 429 - rate limited");
                   ("details", Str "Error: AI processing failed: OpenRouter API error: 429 - rate limited") ])).
Proof.
  intros env w f w1 e.
  assert (H1 : Multer.single (upload env) (Some Sample.scan) w = (Return (Some f), w1))
    by reflexivity.
  assert (H2 : repair_try env (Some f) w1 = (Throw e, (repair_try env (Some f) w1).2))
    by reflexivity.
  split; [exact H1|]. split; [exact H2|].
  destruct (proj2 (pipeline_errors_reported env (Some Sample.scan) w w1 (Some f) H1) e _ H2)
    as (w' & -> & _).
  reflexivity.
Defined.

(** C10.  When a step of the pipeline throws [e] and the unlink of the
    [catch] block throws as well, the cleanup error is dropped: the answer
    is the 500 with the message of [e], the same answer as when the
    cleanup succeeds. *)
Theorem cleanup_failure_swallowed (env : environment) (form : option Multer.part)
    (w w1 w2 w3 : world) (f : Multer.file) (e cleanupError : error) :
  Multer.single (upload env) form w = (Return (Some f), w1) →
  repair_try env (Some f) w1 = (Throw e, w2) →
  fs.unlink env (Multer.path f) w2 = (Throw cleanupError, w3) →
  post_repair_image env form w = (Some (res_json 500 (failure_body env e)), w3) ∧
  field "message" (post_repair_image env form w).1 = Str (message e) ∧
  (∀ w2', (repair_catch env (Some f) e w2').1 = Return (res_json 500 (failure_body env e))).
Proof.
  intros Hsingle Htry Hunlink.
  assert (Heq : post_repair_image env form w = (Some (res_json 500 (failure_body env e)), w3)).
  { unfold post_repair_image. rewrite Hsingle.
    unfold repair_image, try_catch. rewrite Htry, repair_catch_eq, Hunlink. reflexivity. }
  split; [exact Heq|]. split; [by rewrite Heq|].
  intros w2'. by rewrite repair_catch_eq.
Qed.

Lemma cleanup_failure_swallowed_witness :
  let env := Sample.stuck in
  let w := Sample.start in
  let f := intake_file env w Sample.scan in
  let w1 := intake env w Sample.scan in
  let e := new_Error "AI processing failed: fetch failed" in
  let w2 := (repair_try env (Some f) w1).2 in
  let w3 := (fs.unlink env (Multer.path f) w2).2 in
  Multer.single (upload env) (Some Sample.scan) w = (Return (Some f), w1) ∧
  repair_try env (Some f) w1 = (Throw e, w2) ∧
  fs.unlink env (Multer.path f) w2 = (Throw Sample.EPERM, w3) ∧
  post_repair_image env (Some Sample.scan) w
  = (Some (res_json 500
             (Obj [ ("error", Str "Image processing failed");
                    ("message", Str "AI processing failed: fetch failed");
                    ("details", Undefined) ])), w3).
Proof.
  intros env w f w1 e w2 w3.
  assert (H1 : Multer.single (upload env) (Some Sample.scan) w = (Return (Some f), w1))
    by reflexivity.
  assert (H2 : repair_try env (Some f) w1 = (Throw e, w2)) by reflexivity.
  assert (H3 : fs.unlink env (Multer.path f) w2 = (Throw Sample.EPERM, w3)) by reflexivity.
  split; [exact H1|]. split; [exact H2|]. split; [exact H3|].
  exact (proj1 (cleanup_failure_swallowed env (Some Sample.scan) w w1 w2 w3 f e Sample.EPERM
                  H1 H2 H3)).
Defined.

(** * Further properties of the server *)

(** ** The repair endpoint, path by path *)

(** The handler as one equation: which step fails decides the error the
    [catch] block answers, and the world it starts its cleanup in. *)
Lemma repair_image_eq (env : environment) (f : Multer.file) (w : world) :
  (Multer.path f).1 = uploadsDir →
  repair_image env (Some f) w =
  let p := Multer.path f in
  let w2 := log (SharpInput p) w in
  let w3 := log (Fetched OPENROUTER_API_URL) w2 in
  let w4 := log (SharpInput p) (uuidv4 env w3).2 in
  let out := "processed-" ++ uuid env (uuid_calls w) ++ ".jpg" in
  match files p.1 w !! p.2 with
  | Some (Img i) =>
      match (callOpenRouterAPI env (toString_base64 (optimized i)) w2).1 with
      | Throw e => repair_catch env (Some f) e w3
      | Return a =>
          match write_fault env with
          | Some we =>
              repair_catch env (Some f)
                (new_Error ("Image processing failed: " ++ message we)) w4
          | None =>
              try_catch
                (fs.unlink env p;;
                 mret (res_json 200
                         (success_body f {| filename := out; path := (processedDir, out);
                                            analysis := a |})))
                (repair_catch env (Some f))
                (log (SharpOutput (processedDir, out))
                   (set_files processedDir (<[out := Img (enhanced i)]>) w4))
          end
      end
  | Some (Raw _) =>
      repair_catch env (Some f)
        (new_Error "Failed to process image: Input file contains unsupported image format") w2
  | None =>
      repair_catch env (Some f)
        (new_Error ("Failed to process image: Input file is missing: " ++ show_path p)) w2
  end.
Proof.
  intros Hdir. unfold repair_image, repair_try. unfold_M.
  rewrite imageToBase64_eq.
  destruct (files (Multer.path f).1 w !! (Multer.path f).2) as [[i|raw]|] eqn:Hfile;
    try reflexivity.
  pose proof (callOpenRouterAPI_world env (toString_base64 (optimized i))
                (log (SharpInput (Multer.path f)) w)) as Hw3.
  destruct (callOpenRouterAPI env _ _) as [o w3] eqn:Hcall.
  simpl in Hw3; subst w3. simpl.
  destruct o as [a|e]; [|reflexivity].
  rewrite processImageWithAI_eq.
  replace (files (Multer.path f).1 _ !! (Multer.path f).2) with (Some (Img i))
    by (rewrite <- Hfile; by rewrite Hdir).
  simpl. destruct (write_fault env) as [we|]; reflexivity.
Qed.

(** The whole endpoint on an accepted upload, leaf by leaf. *)
Lemma post_repair_image_accepted (env : environment) (w : world) (p : Multer.part) :
  accepted p →
  post_repair_image env (Some p) w =
  let target := transient env w p in
  let f := intake_file env w p in
  let w2 := log (SharpInput target) (intake env w p) in
  let w3 := log (Fetched OPENROUTER_API_URL) w2 in
  let w4 := log (SharpInput target) (uuidv4 env w3).2 in
  let out := artifact_name env w in
  match Multer.data p with
  | Raw _ =>
      (Some (res_json 500 (failure_body env
         (new_Error "Failed to process image: Input file contains unsupported image format"))),
       cleanup env target w2)
  | Img i =>
      let w5 := log (SharpOutput (processedDir, out))
                  (set_files processedDir (<[out := Img (enhanced i)]>) w4) in
      match (callOpenRouterAPI env (toString_base64 (optimized i)) w2).1 with
      | Throw e => (Some (res_json 500 (failure_body env e)), cleanup env target w3)
      | Return a =>
          match write_fault env with
          | Some we =>
              (Some (res_json 500 (failure_body env
                 (new_Error ("Image processing failed: " ++ message we)))),
               cleanup env target w4)
          | None =>
              match unlink_fault env (unlink_calls w) with
              | Some ue =>
                  (Some (res_json 500 (failure_body env ue)),
                   cleanup env target (log (Unlinked target false) (fs.bump_unlink w5)))
              | None =>
                  (Some (res_json 200
                     (success_body f {| filename := out; path := (processedDir, out);
                                        analysis := a |})),
                   log (Unlinked target true)
                     (set_files uploadsDir (delete target.2) (fs.bump_unlink w5)))
              end
          end
      end
  end.
Proof.
  intros Hacc. unfold post_repair_image.
  rewrite (single_accepted env w p Hacc).
  rewrite (repair_image_eq env (intake_file env w p) (intake env w p) eq_refl).
  cbv zeta.
  change (Multer.path (intake_file env w p)) with (transient env w p).
  pose proof (intake_lookup env w p) as Hlk.
  change (files (transient env w p).1 (intake env w p) !! (transient env w p).2)
    with (uploads (intake env w p) !! (transient env w p).2).
  rewrite Hlk.
  destruct (Multer.data p) as [i|raw] eqn:Hdata.
  2: { rewrite repair_catch_eq. reflexivity. }
  destruct (callOpenRouterAPI env _ _).1 as [a|e].
  2: { rewrite repair_catch_eq. reflexivity. }
  destruct (write_fault env) as [we|].
  { rewrite repair_catch_eq. reflexivity. }
  unfold try_catch at 1. unfold_M.
  erewrite unlink_present by exact Hlk.
  change (unlink_calls _) with (unlink_calls w) at 1.
  destruct (unlink_fault env (unlink_calls w)) as [ue|]; [|reflexivity].
  rewrite repair_catch_eq. reflexivity.
Qed.

Lemma callOpenRouterAPI_outcome (env : environment) (b : base64) (w1 w2 : world) :
  (callOpenRouterAPI env b w1).1 = (callOpenRouterAPI env b w2).1.
Proof.
  unfold callOpenRouterAPI, callOpenRouterAPI_try. unfold_M. simpl.
  destruct (fetch env _ _) as [r|e]; simpl; [|reflexivity].
  destruct (ok r); simpl.
  - destruct (json r) as [d|e]; simpl; [|reflexivity].
    destruct (get_prop d _) as [c|e]; simpl; [|reflexivity].
    destruct (get_index c _) as [c0|e]; simpl; [|reflexivity].
    destruct (get_prop c0 _) as [m|e]; simpl; [|reflexivity].
    destruct (get_prop m _) as [a|e]; reflexivity.
  - destruct (text r) as [t|e]; reflexivity.
Qed.

(** An upload is accepted, or refused by the file filter, or refused by
    the size limit, or passed over for want of a name. *)
Lemma part_cases (p : Multer.part) :
  accepted p ∨
  (Multer.basename (Multer.originalname p) ≠ "" ∧
   String.prefix "image/" (Multer.mimetype p) = false) ∨
  (stored p ∧ (10485760 <= Multer.size p)%N) ∨
  Multer.basename (Multer.originalname p) = "".
Proof.
  unfold accepted, stored.
  destruct (String.eqb_spec (Multer.basename (Multer.originalname p)) "") as [Hnone|Hname];
    [by auto|].
  destruct (String.prefix "image/" (Multer.mimetype p)); [|by auto].
  destruct (N.leb_spec 10485760 (Multer.size p)); [right; right; left; by auto|left].
  split; [done|]. lia.
Qed.

Lemma too_large_answer (env : environment) (w : world) (p : Multer.part) :
  stored p →
  (10485760 <= Multer.size p)%N →
  post_repair_image env (Some p) w
  = (Some (res_json 400 (Obj [ ("error", Str "File too large");
                               ("message", Str "Image file must be smaller than 10MB") ])),
     cleanup env (transient env w p) (intake env w p)).
Proof.
  intros Hst Hsize. unfold post_repair_image.
  rewrite single_too_large by (done || lia). reflexivity.
Qed.

(** The answer to an accepted upload is the 200 of a success or the 500 of
    the [catch] block. *)
Lemma accepted_answer (env : environment) (w : world) (p : Multer.part) :
  accepted p →
  (∃ r, (post_repair_image env (Some p) w).1
        = Some (res_json 200 (success_body (intake_file env w p) r))) ∨
  (∃ e, (post_repair_image env (Some p) w).1 = Some (res_json 500 (failure_body env e))).
Proof.
  intros Hacc. rewrite (post_repair_image_accepted env w p Hacc). cbv zeta.
  destruct (Multer.data p) as [i|raw]; [|right; by eexists].
  destruct (callOpenRouterAPI env _ _).1 as [a|e]; [|right; by eexists].
  destruct (write_fault env) as [we|]; [right; by eexists|].
  destruct (unlink_fault env (unlink_calls w)) as [ue|]; [right|left]; by eexists.
Qed.

(** ** X1, X2: which requests are answered with a 400 *)

(** What the parser makes of a file name. *)
Example basename_examples :
  Multer.basename "grandma.png" = "grandma.png" ∧
  Multer.basename "C:\photos\grandma.png" = "grandma.png" ∧
  Multer.basename "../../etc/passwd" = "passwd" ∧
  Multer.basename "" = "" ∧ Multer.basename "." = "" ∧ Multer.basename ".." = "" ∧
  Multer.basename "photos/" = "" ∧ Multer.basename "photos/.." = "".
Proof. repeat split. Qed.

(** X1.  The endpoint answers 400 "No image file provided" exactly when
    the form carries no file part, or a file part that the parser reports
    without a name (its file name is empty, [.] or [..], or ends in one of
    these after a separator); and then it changes nothing. *)
Theorem no_file_answer_iff (env : environment) (form : option Multer.part) (w : world) :
  let missing := res_json 400 (Obj [ ("error", Str "No image file provided");
                                     ("message", Str "Please upload an image file") ]) in
  let no_file := match form with
                 | None => True
                 | Some p => Multer.basename (Multer.originalname p) = ""
                 end in
  ((post_repair_image env form w).1 = Some missing ↔ no_file) ∧
  (no_file → post_repair_image env form w = (Some missing, w)).
Proof.
  intros missing no_file.
  assert (Hno : no_file → post_repair_image env form w = (Some missing, w)).
  { subst no_file. destruct form as [p|]; [|reflexivity]. apply unnamed_answer. }
  split; [split|exact Hno].
  - subst no_file. destruct form as [p|]; [|done]. intros H.
    destruct (part_cases p) as [Hacc | [[Hname Hmime] | [[Hst Hsize] | Hnone]]];
      [exfalso..|exact Hnone].
    + destruct (accepted_answer env w p Hacc) as [[r Hr] | [e He]].
      * rewrite Hr in H. discriminate H.
      * rewrite He in H. discriminate H.
    + rewrite not_image_refused in H by done. discriminate H.
    + rewrite too_large_answer in H by done. discriminate H.
  - intros H. by rewrite Hno.
Qed.

Lemma no_file_answer_iff_witness :
  let part := {| Multer.originalname := "photos/.."; Multer.mimetype := "image/png";
                 Multer.size := 3000000; Multer.data := Img Sample.photo |} in
  Multer.basename (Multer.originalname part) = "" ∧
  post_repair_image Sample.calm (Some part) Sample.start
  = (Some (res_json 400 (Obj [ ("error", Str "No image file provided");
                               ("message", Str "Please upload an image file") ])),
     Sample.start).
Proof.
  intros part.
  assert (H : Multer.basename (Multer.originalname part) = "") by reflexivity.
  split; [exact H|].
  exact (proj2 (no_file_answer_iff Sample.calm (Some part) Sample.start) H).
Defined.

(** X2.  The endpoint answers 400 "File too large" exactly when the upload
    has a name, is declared as an image and has 10485760 bytes or more: the
    limit itself is refused, and 10485759 bytes are the most that reach
    the handler. *)
Theorem too_large_answer_iff (env : environment) (p : Multer.part) (w : world) :
  (post_repair_image env (Some p) w).1
  = Some (res_json 400 (Obj [ ("error", Str "File too large");
                              ("message", Str "Image file must be smaller than 10MB") ]))
  ↔ Multer.basename (Multer.originalname p) ≠ "" ∧
    String.prefix "image/" (Multer.mimetype p) = true ∧
    (10485760 <= Multer.size p)%N.
Proof.
  split.
  - intros H.
    destruct (part_cases p) as [Hacc | [[Hname Hmime] | [[[Hname Hmime] Hsize] | Hnone]]];
      [exfalso..|done|exfalso].
    + destruct (accepted_answer env w p Hacc) as [[r Hr] | [e He]].
      * rewrite Hr in H. discriminate H.
      * rewrite He in H. discriminate H.
    + rewrite not_image_refused in H by done. discriminate H.
    + rewrite unnamed_answer in H by done. discriminate H.
  - intros (Hname & Hmime & Hsize). by rewrite too_large_answer.
Qed.

(** At the limit itself the upload is refused; one byte less reaches the
    handler. *)
Example image_at_the_limit_is_refused :
  let part (bytes : N) :=
    {| Multer.originalname := "big.png"; Multer.mimetype := "image/png";
       Multer.size := bytes; Multer.data := Img Sample.photo |} in
  status_of (post_repair_image Sample.calm (Some (part 10485760%N)) Sample.start).1 = Some 400 ∧
  status_of (post_repair_image Sample.calm (Some (part 10485759%N)) Sample.start).1 = Some 200.
Proof. split; reflexivity. Qed.

Lemma too_large_answer_iff_witness :
  Multer.basename (Multer.originalname Sample.huge_scan) ≠ "" ∧
  String.prefix "image/" (Multer.mimetype Sample.huge_scan) = true ∧
  (10485760 <= Multer.size Sample.huge_scan)%N ∧
  (post_repair_image Sample.calm (Some Sample.huge_scan) Sample.start).1
  = Some (res_json 400 (Obj [ ("error", Str "File too large");
                              ("message", Str "Image file must be smaller than 10MB") ])).
Proof.
  assert (H : Multer.basename (Multer.originalname Sample.huge_scan) ≠ "" ∧
              String.prefix "image/" (Multer.mimetype Sample.huge_scan) = true ∧
              (10485760 <= Multer.size Sample.huge_scan)%N)
    by (split; [by vm_compute | split; by vm_compute]).
  split; [exact (proj1 H)|]. split; [exact (proj1 (proj2 H))|].
  split; [exact (proj2 (proj2 H))|].
  exact (proj2 (too_large_answer_iff Sample.calm Sample.huge_scan Sample.start) H).
Defined.

(** ** X3, X4: what a request does to the two stores *)

Lemma cleanup_uploads (env : environment) (p : filepath) (w : world) (k : string) :
  p.1 = uploadsDir → k ≠ p.2 → uploads (cleanup env p w) !! k = uploads w !! k.
Proof.
  destruct p as [d name]; simpl. intros -> Hk. unfold cleanup, fs.unlink; simpl.
  destruct (unlink_fault env _); [reflexivity|].
  destruct (uploads w !! name); [|reflexivity].
  simpl. by rewrite lookup_delete_ne.
Qed.

Lemma cleanup_processed (env : environment) (p : filepath) (w : world) :
  p.1 = uploadsDir → processed (cleanup env p w) = processed w.
Proof.
  destruct p as [d name]; simpl. intros ->. unfold cleanup, fs.unlink; simpl.
  destruct (unlink_fault env _); [reflexivity|].
  by destruct (uploads w !! name).
Qed.

Lemma cleanup_trace (env : environment) (p : filepath) (w : world) :
  ∃ b, trace (cleanup env p w) = Unlinked p b :: trace w.
Proof.
  unfold cleanup, fs.unlink.
  destruct (unlink_fault env _); [by exists false|].
  destruct (files p.1 w !! p.2); [exists true | exists false];
    [by destruct p as [[] ?] | reflexivity].
Qed.

(** X3.  A request leaves every file of the transient store alone, except
    the one it stores its own upload under. *)
Theorem other_uploads_untouched (env : environment) (form : option Multer.part)
    (w : world) (k : string) :
  (∀ p, form = Some p → k ≠ (transient env w p).2) →
  uploads (post_repair_image env form w).2 !! k = uploads w !! k.
Proof.
  intros Hk. destruct form as [p|]; [|reflexivity].
  specialize (Hk p eq_refl).
  destruct (part_cases p) as [Hacc | [[Hname Hmime] | [[Hst Hsize] | Hnone]]].
  - rewrite (post_repair_image_accepted env w p Hacc). cbv zeta.
    assert (Hins : uploads (intake env w p) !! k = uploads w !! k)
      by (unfold intake, Multer.store; simpl; by rewrite lookup_insert_ne).
    destruct (Multer.data p) as [i|raw] eqn:Hdata.
    2: { cbn [snd]. rewrite cleanup_uploads by done. exact Hins. }
    destruct (callOpenRouterAPI env _ _).1 as [a|e].
    2: { cbn [snd]. rewrite cleanup_uploads by done. exact Hins. }
    destruct (write_fault env) as [we|].
    { cbn [snd]. rewrite cleanup_uploads by done. exact Hins. }
    destruct (unlink_fault env (unlink_calls w)) as [ue|]; cbn [snd].
    + rewrite cleanup_uploads by done. exact Hins.
    + simpl. rewrite lookup_delete_ne by done. exact Hins.
  - by rewrite not_image_refused.
  - rewrite too_large_answer by done. cbn [snd].
    rewrite cleanup_uploads by done.
    unfold intake, Multer.store; simpl. by rewrite lookup_insert_ne.
  - by rewrite unnamed_answer.
Qed.

Lemma other_uploads_untouched_witness :
  let w := {| uploads := {[ "someone-else.png" := Img Sample.photo ]}; processed := ∅;
              trace := []; uuid_calls := 0; unlink_calls := 0;
              dirname := Sample.app; host := Sample.disk |} in
  (∀ p, Some Sample.scan = Some p → "someone-else.png" ≠ (transient Sample.stuck w p).2) ∧
  uploads (post_repair_image Sample.stuck (Some Sample.scan) w).2 !! "someone-else.png"
  = Some (Img Sample.photo).
Proof.
  intros w.
  assert (H : ∀ p, Some Sample.scan = Some p →
                   "someone-else.png" ≠ (transient Sample.stuck w p).2).
  { intros p [= <-]. by vm_compute. }
  split; [exact H|].
  rewrite (other_uploads_untouched Sample.stuck (Some Sample.scan) w "someone-else.png" H).
  reflexivity.
Defined.

(** X4.  The artifact store only grows: a request changes it at most under
    the name of its own artifact, and no artifact that was there is ever
    removed. *)
Theorem artifacts_append_only (env : environment) (form : option Multer.part)
    (w : world) (k : string) :
  let w' := (post_repair_image env form w).2 in
  (k ≠ artifact_name env w → processed w' !! k = processed w !! k) ∧
  (is_Some (processed w !! k) → is_Some (processed w' !! k)).
Proof.
  intros w'.
  assert (Hframe : processed w' = processed w ∨
                   ∃ c, processed w' = <[artifact_name env w := c]> (processed w)).
  { subst w'. destruct form as [p|]; [|by left].
    destruct (part_cases p) as [Hacc | [[Hname Hmime] | [[Hst Hsize] | Hnone]]].
    - rewrite (post_repair_image_accepted env w p Hacc). cbv zeta.
      destruct (Multer.data p) as [i|raw] eqn:Hdata.
      2: { left. simpl. by rewrite cleanup_processed. }
      destruct (callOpenRouterAPI env _ _).1 as [a|e].
      2: { left. simpl. by rewrite cleanup_processed. }
      destruct (write_fault env) as [we|].
      { left. simpl. by rewrite cleanup_processed. }
      destruct (unlink_fault env (unlink_calls w)) as [ue|]; simpl; right; eexists.
      + by rewrite cleanup_processed.
      + reflexivity.
    - left. by rewrite not_image_refused.
    - left. rewrite too_large_answer by done. cbn [snd]. by rewrite cleanup_processed.
    - left. by rewrite unnamed_answer. }
  destruct Hframe as [-> | [c ->]]; [done|]. split.
  - intros Hk. by rewrite lookup_insert_ne.
  - intros Hsome. destruct (decide (artifact_name env w = k)) as [<- | Hne].
    + rewrite lookup_insert_eq. by eexists.
    + by rewrite lookup_insert_ne.
Qed.

Lemma artifacts_append_only_witness :
  let w := {| uploads := ∅; processed := {[ "processed-old.jpg" := Img Sample.photo ]};
              trace := []; uuid_calls := 0; unlink_calls := 0;
              dirname := Sample.app; host := Sample.disk |} in
  "processed-old.jpg" ≠ artifact_name Sample.calm w ∧
  processed (post_repair_image Sample.calm (Some Sample.scan) w).2 !! "processed-old.jpg"
  = Some (Img Sample.photo).
Proof.
  intros w.
  assert (H : "processed-old.jpg" ≠ artifact_name Sample.calm w) by (by vm_compute).
  split; [exact H|].
  rewrite (proj1 (artifacts_append_only Sample.calm (Some Sample.scan) w "processed-old.jpg") H).
  reflexivity.
Defined.

(** ** X5: requests to the upstream service *)

(** The number of upstream requests of the endpoint on an accepted
    upload: one if the upload decodes, none otherwise. *)
Lemma fetches_of_accepted (env : environment) (w : world) (p : Multer.part) :
  accepted p →
  count is_fetch (since w (post_repair_image env (Some p) w).2)
  = match Multer.data p with Img _ => 1%nat | Raw _ => 0%nat end.
Proof.
  intros Hacc. rewrite (post_repair_image_accepted env w p Hacc). cbv zeta.
  set (target := transient env w p).
  destruct (Multer.data p) as [i|raw] eqn:Hdata.
  2: { cbn [snd]. destruct (cleanup_trace env target
                              (log (SharpInput target) (intake env w p))) as [b Hb].
       by rewrite (since_app w _ [Unlinked target b; SharpInput target; Stored target])
         by (by rewrite Hb). }
  destruct (callOpenRouterAPI env _ _).1 as [a|e].
  2: { cbn [snd]. destruct (cleanup_trace env target
         (log (Fetched OPENROUTER_API_URL) (log (SharpInput target) (intake env w p))))
         as [b Hb].
       by rewrite (since_app w _ [Unlinked target b; Fetched OPENROUTER_API_URL;
                                  SharpInput target; Stored target])
         by (by rewrite Hb). }
  destruct (write_fault env) as [we|].
  { cbn [snd]. match goal with |- context [cleanup env target ?wx] =>
      destruct (cleanup_trace env target wx) as [b Hb] end.
    by rewrite (since_app w _ [Unlinked target b; SharpInput target;
                               Fetched OPENROUTER_API_URL;
                               SharpInput target; Stored target])
      by (by rewrite Hb). }
  destruct (unlink_fault env (unlink_calls w)) as [ue|]; cbn [snd].
  - match goal with |- context [cleanup env target ?wx] =>
      destruct (cleanup_trace env target wx) as [b Hb] end.
    by rewrite (since_app w _ [Unlinked target b; Unlinked target false;
                               SharpOutput (processedDir, artifact_name env w);
                               SharpInput target; Fetched OPENROUTER_API_URL;
                               SharpInput target; Stored target])
      by (by rewrite Hb).
  - by rewrite (since_app w _ [Unlinked target true;
                               SharpOutput (processedDir, artifact_name env w);
                               SharpInput target; Fetched OPENROUTER_API_URL;
                               SharpInput target; Stored target]).
Qed.

(** X5.  A request to the repair endpoint sends at most one request to the
    upstream service (there is no retry), and it sends one exactly when
    its upload was accepted (it has a name, is declared as an image and
    has fewer than 10485760 bytes) and decoded by the optimizer. *)
Theorem single_upstream_request (env : environment) (form : option Multer.part) (w : world) :
  let fetches := count is_fetch (since w (post_repair_image env form w).2) in
  (fetches <= 1)%nat ∧
  (fetches = 1%nat ↔ ∃ p i, form = Some p ∧ accepted p ∧ Multer.data p = Img i).
Proof.
  intros fetches.
  assert (Hnone : ∀ w', trace w' = trace w → count is_fetch (since w w') = 0%nat).
  { intros w' H. by rewrite (since_app w w' []). }
  destruct form as [p|].
  2: { subst fetches. rewrite Hnone by reflexivity. split; [lia|].
       split; [discriminate | by intros (p & i & [=] & _)]. }
  destruct (part_cases p) as [Hacc | [[Hname Hmime] | [[Hst Hsize] | Hempty]]].
  - subst fetches. rewrite (fetches_of_accepted env w p Hacc).
    destruct (Multer.data p) as [i|raw] eqn:Hdata.
    + split; [lia|]. split; [intros _; by exists p, i | done].
    + split; [lia|]. split; [discriminate|].
      intros (p' & i & [= <-] & _ & H). congruence.
  - subst fetches. rewrite not_image_refused by done. rewrite Hnone by reflexivity.
    split; [lia|]. split; [discriminate|].
    intros (p' & i & [= <-] & [[_ H] _] & _). congruence.
  - subst fetches. rewrite too_large_answer by done. cbn [snd].
    destruct (cleanup_trace env (transient env w p) (intake env w p)) as [b Hb].
    rewrite (since_app w _ [Unlinked (transient env w p) b; Stored (transient env w p)])
      by (by rewrite Hb).
    split; [unfold count; simpl; lia|]. split; [discriminate|].
    intros (p' & i & [= <-] & [_ H] & _). lia.
  - subst fetches. rewrite unnamed_answer by done. rewrite Hnone by reflexivity.
    split; [lia|]. split; [discriminate|].
    intros (p' & i & [= <-] & [[H _] _] & _). congruence.
Qed.

(** At the limit itself nothing is sent upstream. *)
Example nothing_sent_at_the_limit :
  let part := {| Multer.originalname := "big.png"; Multer.mimetype := "image/png";
                 Multer.size := 10485760; Multer.data := Img Sample.photo |} in
  count is_fetch (since Sample.start (post_repair_image Sample.calm (Some part) Sample.start).2)
  = 0%nat.
Proof. reflexivity. Qed.

Lemma single_upstream_request_witness :
  (∃ p i, Some Sample.scan = Some p ∧ accepted p ∧ Multer.data p = Img i) ∧
  count is_fetch (since Sample.start
                    (post_repair_image Sample.stuck (Some Sample.scan) Sample.start).2) = 1%nat.
Proof.
  assert (H : ∃ p i, Some Sample.scan = Some p ∧ accepted p ∧ Multer.data p = Img i).
  { exists Sample.scan, Sample.photo. split; [reflexivity|]. split; [exact scan_accepted|].
    reflexivity. }
  split; [exact H|].
  exact (proj2 (proj2 (single_upstream_request Sample.stuck (Some Sample.scan) Sample.start)) H).
Defined.

(** ** X6, X7, X8: success, and what is left in the artifact store *)

(** X6.  The endpoint answers 200 exactly when the upload is accepted (it
    has a name, is declared as an image and has fewer than 10485760 bytes)
    and decodes, the external analysis returns, the artifact can be
    written and the unlink after it succeeds. *)
Theorem answers_200_iff (env : environment) (form : option Multer.part) (w : world) :
  status_of (post_repair_image env form w).1 = Some 200 ↔
  ∃ p i a,
    form = Some p ∧ accepted p ∧ Multer.data p = Img i ∧
    (callOpenRouterAPI env (toString_base64 (optimized i)) w).1 = Return a ∧
    write_fault env = None ∧
    unlink_fault env (unlink_calls w) = None.
Proof.
  destruct form as [p|].
  2: { split; [discriminate | by intros (p & i & a & [=] & _)]. }
  destruct (part_cases p) as [Hacc | [[Hname Hmime] | [[Hst Hsize] | Hnone]]].
  - rewrite (post_repair_image_accepted env w p Hacc). cbv zeta.
    destruct (Multer.data p) as [i|raw] eqn:Hdata.
    2: { split; [discriminate|]. intros (p' & i & a & [= <-] & _ & H & _). congruence. }
    rewrite (callOpenRouterAPI_outcome env _ _ w).
    destruct (callOpenRouterAPI env _ w).1 as [a|e] eqn:Hcall.
    2: { split; [discriminate|].
         intros (p' & i' & a & [= <-] & _ & H & Hc & _).
         rewrite Hdata in H. injection H as <-. congruence. }
    destruct (write_fault env) as [we|].
    { split; [discriminate|]. by intros (p' & i' & a' & _ & _ & _ & _ & [=] & _). }
    destruct (unlink_fault env (unlink_calls w)) as [ue|].
    { split; [discriminate|]. by intros (p' & i' & a' & _ & _ & _ & _ & _ & [=]). }
    split; [intros _ | done]. by exists p, i, a.
  - rewrite not_image_refused by done. split; [discriminate|].
    intros (p' & i & a & [= <-] & [[_ H] _] & _). congruence.
  - rewrite too_large_answer by done. split; [discriminate|].
    intros (p' & i & a & [= <-] & [_ H] & _). lia.
  - rewrite unnamed_answer by done. split; [discriminate|].
    intros (p' & i & a & [= <-] & [[H _] _] & _). congruence.
Qed.

Lemma answers_200_iff_witness :
  (∃ p i a,
     Some Sample.scan = Some p ∧ accepted p ∧ Multer.data p = Img i ∧
     (callOpenRouterAPI Sample.calm (toString_base64 (optimized i)) Sample.start).1 = Return a ∧
     write_fault Sample.calm = None ∧
     unlink_fault Sample.calm (unlink_calls Sample.start) = None) ∧
  status_of (post_repair_image Sample.calm (Some Sample.scan) Sample.start).1 = Some 200.
Proof.
  assert (H : ∃ p i a,
     Some Sample.scan = Some p ∧ accepted p ∧ Multer.data p = Img i ∧
     (callOpenRouterAPI Sample.calm (toString_base64 (optimized i)) Sample.start).1 = Return a ∧
     write_fault Sample.calm = None ∧
     unlink_fault Sample.calm (unlink_calls Sample.start) = None).
  { exists Sample.scan, Sample.photo, (Str "restore plan X").
    split; [reflexivity|]. split; [exact scan_accepted|]. repeat split. }
  split; [exact H|].
  exact (proj2 (answers_200_iff Sample.calm (Some Sample.scan) Sample.start) H).
Defined.

(** X7.  After a 200, the URL in the answer names the artifact of the
    request, and fetching it from the retrieval endpoint returns the
    enhanced version of the uploaded picture: same scene, JPEG at quality
    95, within 2048 x 2048 and in neither dimension larger than the
    upload. *)
Theorem repaired_picture_is_served (env : environment) (w : world) (p : Multer.part) :
  let '(res, w') := post_repair_image env (Some p) w in
  status_of res = Some 200 →
  ∃ i,
    Multer.data p = Img i ∧
    field "processedImageUrl" res = Str ("/api/processed/" ++ artifact_name env w) ∧
    field "processedFilename" res = Str (artifact_name env w) ∧
    get_processed (artifact_name env w) w'
    = (Some {| status := 200;
               headers := [ ("Content-Type", "image/jpeg");
                            ("Cache-Control", "public, max-age=86400") ];
               body := file_body (Img (enhanced i)) |}, w') ∧
    scene (enhanced i) = scene i ∧
    encoding (enhanced i) = JPEG ∧ quality (enhanced i) = Some 95%N ∧
    fits_within 2048 2048 (enhanced i) ∧
    (width (enhanced i) <= width i)%positive ∧ (height (enhanced i) <= height i)%positive.
Proof.
  destruct (part_cases p) as [Hacc | [[Hname Hmime] | [[Hst Hsize] | Hnone]]].
  - rewrite (post_repair_image_accepted env w p Hacc). cbv zeta.
    destruct (Multer.data p) as [i|raw] eqn:Hdata; [|discriminate].
    destruct (callOpenRouterAPI env _ _).1 as [a|e]; [|discriminate].
    destruct (write_fault env) as [we|]; [discriminate|].
    destruct (unlink_fault env (unlink_calls w)) as [ue|]; [discriminate|].
    intros _. exists i.
    pose proof (enhanced_spec i) as (Hfit & Hw & Hh & Henc & Hq & Hscene & _).
    split; [reflexivity|]. split; [reflexivity|]. split; [reflexivity|].
    split; [|done].
    rewrite get_processed_eq by apply output_name_visible.
    simpl. by rewrite lookup_insert_eq.
  - rewrite not_image_refused by done. discriminate.
  - rewrite too_large_answer by done. discriminate.
  - rewrite unnamed_answer by done. discriminate.
Qed.

Lemma repaired_picture_is_served_witness :
  status_of (post_repair_image Sample.calm (Some Sample.scan) Sample.start).1 = Some 200 ∧
  ∃ i,
    Multer.data Sample.scan = Img i ∧
    (get_processed "processed-id1.jpg"
       (post_repair_image Sample.calm (Some Sample.scan) Sample.start).2).1
    = Some {| status := 200;
              headers := [ ("Content-Type", "image/jpeg");
                           ("Cache-Control", "public, max-age=86400") ];
              body := file_body (Img (enhanced i)) |}.
Proof.
  assert (Hok : status_of (post_repair_image Sample.calm (Some Sample.scan) Sample.start).1
                = Some 200) by reflexivity.
  split; [exact Hok|].
  pose proof (repaired_picture_is_served Sample.calm Sample.start Sample.scan) as H.
  destruct (post_repair_image Sample.calm (Some Sample.scan) Sample.start) as [res w'].
  destruct (H Hok) as (i & Hdata & _ & _ & Hget & _).
  exists i. split; [exact Hdata|].
  change (artifact_name Sample.calm Sample.start) with "processed-id1.jpg" in Hget.
  simpl. by rewrite Hget.
Defined.

(** X8.  An artifact without an answer: when every step succeeds but the
    unlink after the materializer is refused, the client is answered with
    the 500 of the unlink error, while the artifact has been written and
    stays in the artifact store. *)
Theorem refused_unlink_leaves_artifact (env : environment) (w : world) (p : Multer.part)
    (i : image) (a : value) (ue : error) :
  accepted p → Multer.data p = Img i →
  (callOpenRouterAPI env (toString_base64 (optimized i)) w).1 = Return a →
  write_fault env = None →
  unlink_fault env (unlink_calls w) = Some ue →
  let '(res, w') := post_repair_image env (Some p) w in
  res = Some (res_json 500 (failure_body env ue)) ∧
  processed w' !! artifact_name env w = Some (Img (enhanced i)) ∧
  (get_processed (artifact_name env w) w').1
  = Some {| status := 200;
            headers := [ ("Content-Type", "image/jpeg");
                         ("Cache-Control", "public, max-age=86400") ];
            body := file_body (Img (enhanced i)) |}.
Proof.
  intros Hacc Hdata Hcall Hwrite Hunlink.
  rewrite (post_repair_image_accepted env w p Hacc). cbv zeta.
  rewrite Hdata, (callOpenRouterAPI_outcome env _ _ w), Hcall, Hwrite, Hunlink.
  split; [reflexivity|].
  assert (Hart : processed (cleanup env (transient env w p)
                   (log (Unlinked (transient env w p) false)
                      (fs.bump_unlink
                         (log (SharpOutput (processedDir, artifact_name env w))
                            (set_files processedDir
                               (<[artifact_name env w := Img (enhanced i)]>)
                               (log (SharpInput (transient env w p))
                                  (uuidv4 env
                                     (log (Fetched OPENROUTER_API_URL)
                                        (log (SharpInput (transient env w p))
                                           (intake env w p)))).2))))))
                 !! artifact_name env w = Some (Img (enhanced i))).
  { rewrite cleanup_processed by reflexivity. simpl. apply lookup_insert_eq. }
  split; [exact Hart|].
  rewrite get_processed_eq by apply output_name_visible. by rewrite Hart.
Qed.

Lemma refused_unlink_leaves_artifact_witness :
  let env := {| NODE_ENV := None; uuid := Sample.ids; uuid_plain := Sample.ids_plain; now := 0;
                fetch := fetch Sample.calm; write_fault := None;
                unlink_fault := λ _, Some Sample.EPERM |} in
  accepted Sample.scan ∧ Multer.data Sample.scan = Img Sample.photo ∧
  (callOpenRouterAPI env (toString_base64 (optimized Sample.photo)) Sample.start).1
  = Return (Str "restore plan X") ∧
  write_fault env = None ∧
  unlink_fault env (unlink_calls Sample.start) = Some Sample.EPERM ∧
  status_of (post_repair_image env (Some Sample.scan) Sample.start).1 = Some 500 ∧
  processed (post_repair_image env (Some Sample.scan) Sample.start).2 !! "processed-id1.jpg"
  = Some (Img (enhanced Sample.photo)).
Proof.
  intros env.
  split; [exact scan_accepted|]. do 4 (split; [reflexivity|]).
  pose proof (refused_unlink_leaves_artifact env Sample.start Sample.scan Sample.photo
                (Str "restore plan X") Sample.EPERM scan_accepted eq_refl eq_refl eq_refl
                eq_refl) as H.
  destruct (post_repair_image env (Some Sample.scan) Sample.start) as [res w'].
  destruct H as (-> & Hart & _). split; [reflexivity | exact Hart].
Defined.

(** ** X9, X10: geometry of the two image passes *)

Section MoreGeometry.

Local Open Scope Q_scope.

Lemma round_mono (x y : Q) : x <= y → (round x <= round y)%Z.
Proof. intros H. unfold round. apply Qfloor_resp_le. lra. Qed.

Lemma shrink_ge_1 (w h tw th : positive) :
  1 <= Qmax 1 (Qmax (Z.pos w # tw) (Z.pos h # th)).
Proof. apply Q.le_max_l. Qed.

Lemma ratio_le_1 (w tw : positive) : (w <= tw)%positive → Z.pos w # tw <= 1.
Proof. intros H. unfold Qle; simpl. lia. Qed.

Lemma ratio_anti (w tw tw' : positive) : (tw <= tw')%positive → Z.pos w # tw' <= Z.pos w # tw.
Proof. intros H. unfold Qle; simpl. nia. Qed.

(** A picture inside the target box keeps its size. *)
Lemma resized_inside_small (w h tw th : positive) :
  (w <= tw)%positive → (h <= th)%positive →
  resized w h tw th {| fit := Inside; withoutEnlargement := true |} = (w, h).
Proof.
  intros Hw Hh. unfold resized, resolve_shrink; simpl.
  set (s := Qmax 1 (Qmax (Z.pos w # tw) (Z.pos h # th))).
  assert (Hs : s == 1).
  { apply Qle_antisym; [|apply Q.le_max_l].
    apply Q.max_lub; [lra|]. apply Q.max_lub; by apply ratio_le_1. }
  assert (Haxis : ∀ x : positive,
            Z.to_pos (round (inject_Z (Z.pos x) / Qmin s (inject_Z (Z.pos x)))) = x).
  { intros x. pose proof (inject_pos_ge_1 x) as Hx.
    assert (Hmin : Qmin s (inject_Z (Z.pos x)) == 1).
    { apply Qle_antisym; [rewrite <- Hs; apply Q.le_min_l|].
      apply Q.min_glb; [rewrite Hs; lra | exact Hx]. }
    assert (Hq : inject_Z (Z.pos x) / Qmin s (inject_Z (Z.pos x)) + (1 # 2)
                 == inject_Z (Z.pos x) + (1 # 2)).
    { rewrite Hmin. field. }
    unfold round. rewrite Hq. fold (round (inject_Z (Z.pos x))).
    rewrite round_inject. reflexivity. }
  by rewrite !Haxis.
Qed.

(** One axis again: a larger target never gives a shorter side. *)
Lemma axis_mono (w : positive) (s s' : Q) :
  1 <= s' → s' <= s →
  (round (inject_Z (Z.pos w) / Qmin s (inject_Z (Z.pos w)))
   <= round (inject_Z (Z.pos w) / Qmin s' (inject_Z (Z.pos w))))%Z.
Proof.
  intros H1 Hle. pose proof (inject_pos_ge_1 w) as Hw.
  set (x := inject_Z (Z.pos w)) in *.
  assert (Hm' : 1 <= Qmin s' x) by (apply Q.min_glb; lra).
  assert (Hmm : Qmin s' x <= Qmin s x).
  { apply Q.min_glb; [|apply Q.le_min_r].
    eapply Qle_trans; [apply Q.le_min_l | exact Hle]. }
  apply round_mono.
  apply Qle_shift_div_r; [lra|].
  assert (Heq : x / Qmin s' x * Qmin s x == x * (Qmin s x / Qmin s' x)) by (field; lra).
  rewrite Heq.
  assert (Hratio : 1 <= Qmin s x / Qmin s' x) by (apply Qle_shift_div_l; lra).
  nra.
Qed.

Lemma axis_positive (w : positive) (s : Q) :
  1 <= s → (1 <= round (inject_Z (Z.pos w) / Qmin s (inject_Z (Z.pos w))))%Z.
Proof.
  intros H1. pose proof (inject_pos_ge_1 w) as Hw.
  rewrite <- (round_inject 1). apply round_mono.
  change (inject_Z 1) with 1.
  assert (Hm : 1 <= Qmin s (inject_Z (Z.pos w))) by (apply Q.min_glb; lra).
  apply Qle_shift_div_l; [lra|].
  pose proof (Q.le_min_r s (inject_Z (Z.pos w))). lra.
Qed.

(** A larger target box never gives a smaller picture. *)
Lemma resized_inside_mono (w h tw th tw' th' : positive) :
  (tw <= tw')%positive → (th <= th')%positive →
  let o := {| fit := Inside; withoutEnlargement := true |} in
  ((resized w h tw th o).1 <= (resized w h tw' th' o).1 ∧
   (resized w h tw th o).2 <= (resized w h tw' th' o).2)%positive.
Proof.
  intros Htw Hth. unfold resized, resolve_shrink; simpl.
  set (s := Qmax 1 (Qmax (Z.pos w # tw) (Z.pos h # th))).
  set (s' := Qmax 1 (Qmax (Z.pos w # tw') (Z.pos h # th'))).
  assert (H1 : 1 <= s') by apply Q.le_max_l.
  assert (H1s : 1 <= s) by apply Q.le_max_l.
  assert (Hle : s' <= s).
  { apply Q.max_lub; [apply Q.le_max_l|].
    eapply Qle_trans; [|apply Q.le_max_r].
    apply Q.max_lub.
    - eapply Qle_trans; [apply ratio_anti; exact Htw | apply Q.le_max_l].
    - eapply Qle_trans; [apply ratio_anti; exact Hth | apply Q.le_max_r]. }
  pose proof (axis_mono w s s' H1 Hle).
  pose proof (axis_mono h s s' H1 Hle).
  pose proof (axis_positive w s H1s). pose proof (axis_positive h s H1s).
  split; lia.
Qed.

End MoreGeometry.

Lemma optimized_geometry (i : image) :
  optimized i =
  {| scene := scene i;
     width := (resized (width i) (height i) 1024 1024
                 {| fit := Inside; withoutEnlargement := true |}).1;
     height := (resized (width i) (height i) 1024 1024
                  {| fit := Inside; withoutEnlargement := true |}).2;
     encoding := JPEG; quality := Some 85%N; edits := edits i;
     generations := S (generations i) |}.
Proof.
  unfold optimized, Sharp.run. cbn [foldl Sharp.apply].
  by destruct (resized _ _ _ _ _) as [w' h'].
Qed.

Lemma enhanced_geometry (i : image) :
  width (enhanced i)
  = (resized (width i) (height i) 2048 2048 {| fit := Inside; withoutEnlargement := true |}).1 ∧
  height (enhanced i)
  = (resized (width i) (height i) 2048 2048 {| fit := Inside; withoutEnlargement := true |}).2.
Proof.
  unfold enhanced, Sharp.run. cbn [foldl Sharp.apply].
  by destruct (resized _ _ _ _ _) as [w' h'].
Qed.

(** X9.  The optimizer leaves the width and the height of a picture that
    already fits into 1024 x 1024 as they are; so a second pass over an
    optimized picture keeps its geometry. *)
Theorem optimizer_keeps_small_pictures (i : image) :
  (fits_within 1024 1024 i → width (optimized i) = width i ∧ height (optimized i) = height i) ∧
  width (optimized (optimized i)) = width (optimized i) ∧
  height (optimized (optimized i)) = height (optimized i).
Proof.
  assert (Hsmall : ∀ j, fits_within 1024 1024 j →
                     width (optimized j) = width j ∧ height (optimized j) = height j).
  { intros j [Hw Hh]. rewrite optimized_geometry. cbn [width height].
    by rewrite resized_inside_small. }
  split; [apply Hsmall|].
  apply Hsmall. apply optimized_spec.
Qed.

Lemma optimizer_keeps_small_pictures_witness :
  let thumb := {| scene := 1; width := 640; height := 480; encoding := GIF;
                  quality := None; edits := [];
                  generations := 0 |} in
  fits_within 1024 1024 thumb ∧
  width (optimized thumb) = 640%positive ∧ height (optimized thumb) = 480%positive.
Proof.
  intros thumb.
  assert (H : fits_within 1024 1024 thumb) by (split; by vm_compute).
  split; [exact H|].
  exact (proj1 (optimizer_keeps_small_pictures thumb) H).
Defined.

(** The enhancement pass keeps the size of a picture that fits into
    2048 x 2048. *)
Lemma enhanced_small (i : image) :
  fits_within 2048 2048 i → width (enhanced i) = width i ∧ height (enhanced i) = height i.
Proof.
  intros [Hw Hh]. destruct (enhanced_geometry i) as [-> ->].
  by rewrite resized_inside_small.
Qed.

(** X10.  The materializer works on the upload itself, not on the payload
    that was sent upstream.  After a 200 the artifact in the store is the
    enhancement of the uploaded picture; it is in neither dimension
    smaller than the payload; and for an upload that fits into
    2048 x 2048 it has the size of the upload, so that for an upload that
    does not fit into 1024 x 1024 it is not what the enhancement of the
    payload would be. *)
Theorem artifact_made_from_upload (env : environment) (w : world) (p : Multer.part)
    (i : image) :
  Multer.data p = Img i →
  status_of (post_repair_image env (Some p) w).1 = Some 200 →
  processed (post_repair_image env (Some p) w).2 !! artifact_name env w
  = Some (Img (enhanced i)) ∧
  (width (optimized i) <= width (enhanced i))%positive ∧
  (height (optimized i) <= height (enhanced i))%positive ∧
  (fits_within 2048 2048 i →
   width (enhanced i) = width i ∧ height (enhanced i) = height i ∧
   (¬ fits_within 1024 1024 i → enhanced i ≠ enhanced (optimized i))).
Proof.
  intros Hdata H200. split; [|split; [|split]].
  - destruct (part_cases p) as [Hacc | [[Hname Hmime] | [[Hst Hsize] | Hnone]]].
    + revert H200. rewrite (post_repair_image_accepted env w p Hacc). cbv zeta.
      rewrite Hdata.
      destruct (callOpenRouterAPI env _ _).1 as [a|e]; [|discriminate].
      destruct (write_fault env) as [we|]; [discriminate|].
      destruct (unlink_fault env (unlink_calls w)) as [ue|]; [discriminate|].
      intros _. simpl. apply lookup_insert_eq.
    + rewrite not_image_refused in H200 by done. discriminate.
    + rewrite too_large_answer in H200 by done. discriminate.
    + rewrite unnamed_answer in H200 by done. discriminate.
  - destruct (enhanced_geometry i) as [-> _].
    rewrite optimized_geometry. cbn [width].
    apply (resized_inside_mono (width i) (height i) 1024 1024 2048 2048); by vm_compute.
  - destruct (enhanced_geometry i) as [_ ->].
    rewrite optimized_geometry. cbn [height].
    apply (resized_inside_mono (width i) (height i) 1024 1024 2048 2048); by vm_compute.
  - intros Hfit. destruct (enhanced_small i Hfit) as [Hw Hh].
    split; [exact Hw|]. split; [exact Hh|].
    intros Hbig Heq. apply Hbig.
    pose proof (optimized_spec i) as ([How Hoh] & _).
    pose proof (enhanced_spec (optimized i)) as (_ & Hew & Heh & _).
    rewrite <- Heq, Hw in Hew. rewrite <- Heq, Hh in Heh.
    split; lia.
Qed.

Lemma artifact_made_from_upload_witness :
  Multer.data Sample.scan = Img Sample.photo ∧
  status_of (post_repair_image Sample.calm (Some Sample.scan) Sample.start).1 = Some 200 ∧
  fits_within 2048 2048 Sample.photo ∧ ¬ fits_within 1024 1024 Sample.photo ∧
  processed (post_repair_image Sample.calm (Some Sample.scan) Sample.start).2
    !! "processed-id1.jpg" = Some (Img (enhanced Sample.photo)) ∧
  width (enhanced Sample.photo) = 2000%positive ∧
  height (enhanced Sample.photo) = 1500%positive ∧
  enhanced Sample.photo ≠ enhanced (optimized Sample.photo).
Proof.
  assert (H200 : status_of (post_repair_image Sample.calm (Some Sample.scan) Sample.start).1
                 = Some 200) by reflexivity.
  assert (Hfit : fits_within 2048 2048 Sample.photo) by (split; by vm_compute).
  assert (Hbig : ¬ fits_within 1024 1024 Sample.photo) by (intros [H _]; by vm_compute in H).
  split; [reflexivity|]. split; [exact H200|]. split; [exact Hfit|]. split; [exact Hbig|].
  destruct (artifact_made_from_upload Sample.calm Sample.start Sample.scan Sample.photo
              eq_refl H200) as (Hart & _ & _ & Hsize).
  split; [exact Hart|].
  destruct (Hsize Hfit) as (Hw & Hh & Hne).
  split; [exact Hw|]. split; [exact Hh|]. exact (Hne Hbig).
Defined.

(** ** X11: the three readings of NODE_ENV *)

(** X11.  [NODE_ENV] is read in three ways: the CORS origins switch on
    ['production'], the stack in the [details] of a 500 on ['development'],
    and the health endpoint reports any non-empty value and calls the rest
    ['development'].  So whenever a stack is disclosed the health endpoint
    says ['development'] and the localhost origins are in force; but with
    [NODE_ENV] unset or empty the health endpoint says ['development'] too,
    the localhost origins are in force, and no stack is disclosed. *)
Theorem node_env_readings (env : environment) (timestamp : string) (e : error) :
  let details := field "details" (Some (res_json 500 (failure_body env e))) in
  let reported := field "environment" (Some (health env timestamp)) in
  (details = Str (stack e) ↔ NODE_ENV env = Some "development") ∧
  (details ≠ Undefined →
   reported = Str "development" ∧
   cors_origin env = [ "http://localhost:5173"; "http://localhost:3000" ]) ∧
  (NODE_ENV env = None ∨ NODE_ENV env = Some "" →
   reported = Str "development" ∧
   cors_origin env = [ "http://localhost:5173"; "http://localhost:3000" ] ∧
   details = Undefined) ∧
  (cors_origin env = [ "https://yourdomain.com"; "https://www.yourdomain.com" ] ↔
   NODE_ENV env = Some "production").
Proof.
  intros details reported. subst details reported. simpl.
  unfold cors_origin.
  pose proof (node_env_is_spec env "development") as [Hdev1 Hdev2].
  pose proof (node_env_is_spec env "production") as [Hprod1 Hprod2].
  destruct (node_env_is env "development") eqn:Edev;
  destruct (node_env_is env "production") eqn:Eprod.
  - rewrite (Hdev1 eq_refl) in Hprod1. by specialize (Hprod1 eq_refl).
  - rewrite (Hdev1 eq_refl). simpl. split; [done|]. split; [done|]. split.
    + intros [Hn|Hn]; discriminate Hn.
    + split; intros Hn; discriminate Hn.
  - rewrite (Hprod1 eq_refl). simpl. split; [|split; [done|split]].
    + split; intros Hn; discriminate Hn.
    + intros [Hn|Hn]; discriminate Hn.
    + done.
  - split; [|split; [done|split]].
    + split; intros Hn; [discriminate Hn|]. apply Hdev2 in Hn. discriminate Hn.
    + intros [-> | ->]; done.
    + split; intros Hn; [discriminate Hn|]. apply Hprod2 in Hn. discriminate Hn.
Qed.

Lemma node_env_readings_witness :
  let env := {| NODE_ENV := None; uuid := Sample.ids; uuid_plain := Sample.ids_plain; now := 0; fetch := fetch Sample.calm;
                write_fault := None; unlink_fault := λ _, None |} in
  (NODE_ENV env = None ∨ NODE_ENV env = Some "") ∧
  field "environment" (Some (health env "2025-01-01T00:00:00.000Z")) = Str "development" ∧
  field "details" (Some (res_json 500 (failure_body env Sample.EPERM))) = Undefined.
Proof.
  intros env.
  assert (H : NODE_ENV env = None ∨ NODE_ENV env = Some "") by (by left).
  split; [exact H|].
  destruct (proj1 (proj2 (proj2 (node_env_readings env "2025-01-01T00:00:00.000Z"
                                   Sample.EPERM))) H) as (Hrep & _ & Hdet).
  split; [exact Hrep | exact Hdet].
Defined.

(** ** X12: the message of a 500 names the failing stage *)

Lemma callOpenRouterAPI_try_outcome (env : environment) (b : base64) (w1 w2 : world) :
  (callOpenRouterAPI_try env b w1).1 = (callOpenRouterAPI_try env b w2).1.
Proof.
  unfold callOpenRouterAPI_try. unfold_M. simpl.
  destruct (fetch env _ _) as [r|e]; simpl; [|reflexivity].
  destruct (ok r); simpl.
  - destruct (json r) as [d|e]; simpl; [|reflexivity].
    destruct (get_prop d _) as [c|e]; simpl; [|reflexivity].
    destruct (get_index c _) as [c0|e]; simpl; [|reflexivity].
    destruct (get_prop c0 _) as [m|e]; simpl; [|reflexivity].
    destruct (get_prop m _) as [a|e]; reflexivity.
  - destruct (text r) as [t|e]; reflexivity.
Qed.

(** X12.  The answer to an accepted upload, stage by stage.  An upload
    that does not decode is answered with a 500 whose message starts with
    [Failed to process image: ]; when the external analysis fails with an
    error, the message is [AI processing failed: ] and the message of that
    error; when the artifact cannot be written, it is
    [Image processing failed: ] and the message of the write error; when
    only the unlink after the materializer fails, it is the message of the
    unlink error as it is; otherwise the answer is a 200. *)
Theorem failure_message_names_stage (env : environment) (w : world) (p : Multer.part) :
  accepted p →
  let res := (post_repair_image env (Some p) w).1 in
  match Multer.data p with
  | Raw _ =>
      status_of res = Some 500 ∧
      ∃ cause, field "message" res = Str ("Failed to process image: " ++ cause)
  | Img i =>
      match (callOpenRouterAPI_try env (toString_base64 (optimized i)) w).1 with
      | Throw e =>
          status_of res = Some 500 ∧
          field "message" res = Str ("AI processing failed: " ++ message e)
      | Return _ =>
          match write_fault env with
          | Some we =>
              status_of res = Some 500 ∧
              field "message" res = Str ("Image processing failed: " ++ message we)
          | None =>
              match unlink_fault env (unlink_calls w) with
              | Some ue => status_of res = Some 500 ∧ field "message" res = Str (message ue)
              | None => status_of res = Some 200
              end
          end
      end
  end.
Proof.
  intros Hacc res. subst res.
  rewrite (post_repair_image_accepted env w p Hacc). cbv zeta.
  destruct (Multer.data p) as [i|raw] eqn:Hdata.
  2: { split; [reflexivity|]. by eexists. }
  rewrite callOpenRouterAPI_catch.
  rewrite (callOpenRouterAPI_try_outcome env _ (log _ _) w).
  destruct (callOpenRouterAPI_try env _ w).1 as [a|e]; [|by split].
  destruct (write_fault env) as [we|]; [by split|].
  destruct (unlink_fault env (unlink_calls w)) as [ue|]; [by split | reflexivity].
Qed.

Lemma failure_message_names_stage_witness :
  accepted Sample.scan ∧
  status_of (post_repair_image Sample.full_disk (Some Sample.scan) Sample.start).1 = Some 500 ∧
  field "message" (post_repair_image Sample.full_disk (Some Sample.scan) Sample.start).1
  = Str "Image processing failed: ENOSPC: no space left on device, write".
Proof.
  split; [exact scan_accepted|].
  exact (failure_message_names_stage Sample.full_disk Sample.start Sample.scan scan_accepted).
Defined.

(** ** X13: the success body on the wire *)

(** X13.  The analysis is passed on as the upstream gave it, unchecked: an
    upstream answer whose first choice has a message without content makes
    the analysis [undefined], the request is still answered with 200, and
    the JSON the client receives then has four fields, without [analysis];
    in every other case it has all five. *)
Theorem analysis_field_on_the_wire (env : environment) (w : world) (p : Multer.part)
    (i : image) (a : value) :
  accepted p → Multer.data p = Img i →
  (callOpenRouterAPI env (toString_base64 (optimized i)) w).1 = Return a →
  write_fault env = None →
  unlink_fault env (unlink_calls w) = None →
  let res := (post_repair_image env (Some p) w).1 in
  status_of res = Some 200 ∧
  field "analysis" res = a ∧
  keys (received res)
  = match a with
    | Undefined => [ "success"; "processedImageUrl"; "originalFilename"; "processedFilename" ]
    | _ => [ "success"; "processedImageUrl"; "analysis"; "originalFilename";
             "processedFilename" ]
    end.
Proof.
  intros Hacc Hdata Hcall Hwrite Hunlink.
  rewrite (post_repair_image_accepted env w p Hacc). cbv zeta.
  rewrite Hdata, (callOpenRouterAPI_outcome env _ _ w), Hcall, Hwrite, Hunlink.
  split; [reflexivity|]. split.
  - simpl. unfold own_property. simpl. by destruct a.
  - by destruct a.
Qed.

Lemma analysis_field_on_the_wire_witness :
  let env := {| NODE_ENV := None; uuid := Sample.ids; uuid_plain := Sample.ids_plain; now := 0;
                fetch := λ _ _, Return {| status_code := 200; text := Return "";
                  json := Return (Obj [ ("choices", Arr [ Obj [ ("message",
                                          Obj [ ("role", Str "assistant") ]) ] ]) ]) |};
                write_fault := None; unlink_fault := λ _, None |} in
  accepted Sample.scan ∧ Multer.data Sample.scan = Img Sample.photo ∧
  (callOpenRouterAPI env (toString_base64 (optimized Sample.photo)) Sample.start).1
  = Return Undefined ∧
  write_fault env = None ∧ unlink_fault env (unlink_calls Sample.start) = None ∧
  status_of (post_repair_image env (Some Sample.scan) Sample.start).1 = Some 200 ∧
  keys (received (post_repair_image env (Some Sample.scan) Sample.start).1)
  = [ "success"; "processedImageUrl"; "originalFilename"; "processedFilename" ].
Proof.
  intros env.
  split; [exact scan_accepted|]. do 4 (split; [reflexivity|]).
  destruct (analysis_field_on_the_wire env Sample.start Sample.scan Sample.photo Undefined
              scan_accepted eq_refl eq_refl eq_refl eq_refl) as (Hs & _ & Hk).
  split; [exact Hs | exact Hk].
Defined.

(** * The serverless relay *)

Ltac unfold_outcome := unfold mbind, outcome_bind, mret, outcome_ret in *.

(** [v.k] throws only on [undefined] and [null]. *)
Lemma get_prop_throws (v : value) (k : string) :
  (∃ e, get_prop v k = Throw e) ↔ v = Undefined ∨ v = Null.
Proof.
  split.
  - intros [e H]. destruct v; simpl in H; try discriminate H; by auto.
  - intros [-> | ->]; by eexists.
Qed.

Lemma truthy_get_prop (v : value) (k : string) :
  truthy v = true → ∃ x, get_prop v k = Return x.
Proof. destruct v; simpl; try discriminate; by eauto. Qed.

Lemma truthy_get_index (v : value) (n : nat) :
  truthy v = true → ∃ x, get_index v n = Return x.
Proof. destruct v; simpl; try discriminate; by eauto. Qed.

(** What the destructuring yields. *)
Lemma destructure_eq (body : value) :
  Vercel.destructure body =
  match get_prop body "imageBase64", get_prop body "prompt" with
  | Return v, Return pr =>
      Return (v, match pr with Undefined => Str Vercel.default_prompt | _ => pr end)
  | _, _ =>
      Throw (new_TypeError
        ("Cannot destructure property 'imageBase64' of 'req.body' as it is "
           ++ match body with Null => "null" | _ => "undefined" end ++ "."))
  end.
Proof. destruct body; reflexivity. Qed.

(** ** X14: when the relay calls the upstream service *)

(** X14.  The relay sends a request upstream exactly when the method is
    POST and the body has a truthy [imageBase64]; it never sends more than
    one; and the request carries that [imageBase64] and the [prompt] of
    the body, with the default prompt in place of a prompt that is
    [undefined] (a [null] or empty prompt is passed on as it is). *)
Theorem relay_calls_upstream_iff (rt : Vercel.runtime) (req : Vercel.request) :
  let calls := (Vercel.handler rt req).2 in
  (length calls <= 1)%nat ∧
  (calls ≠ [] ↔
   Vercel.method req = "POST" ∧
   ∃ v, get_prop (Vercel.body req) "imageBase64" = Return v ∧ truthy v = true) ∧
  (∀ c, c ∈ calls →
     get_prop (Vercel.body req) "imageBase64" = Return (Vercel.image c) ∧
     ∃ pr, get_prop (Vercel.body req) "prompt" = Return pr ∧
           Vercel.text c = match pr with
                           | Undefined => Str Vercel.default_prompt
                           | _ => pr
                           end).
Proof.
  unfold Vercel.handler.
  destruct (String.eqb_spec (Vercel.method req) "OPTIONS") as [Hopt|Hopt].
  { simpl. split; [lia|]. split; [|by intros c Hc; inversion Hc].
    split; [done|]. intros [Hpost _]. congruence. }
  destruct (String.eqb_spec (Vercel.method req) "POST") as [Hpost|Hpost]; simpl.
  2: { split; [lia|]. split; [|by intros c Hc; inversion Hc].
       split; [done|]. by intros [? _]. }
  rewrite destructure_eq.
  destruct (get_prop (Vercel.body req) "imageBase64") as [v|e] eqn:Hv.
  2: { simpl. split; [lia|]. split; [|by intros c Hc; inversion Hc].
       split; [done|]. by intros [_ (v & [=] & _)]. }
  destruct (get_prop (Vercel.body req) "prompt") as [pr|e] eqn:Hpr.
  2: { exfalso. assert (He : ∃ e, get_prop (Vercel.body req) "prompt" = Throw e) by eauto.
       apply get_prop_throws in He.
       assert (Hv' : ∃ e, get_prop (Vercel.body req) "imageBase64" = Throw e)
         by (by apply get_prop_throws).
       destruct Hv' as [e' He']. congruence. }
  destruct (truthy v) eqn:Ht; simpl.
  - split; [lia|]. split.
    + split; [intros _|done]. split; [done|]. by exists v.
    + intros c Hc. apply list_elem_of_singleton in Hc as ->. simpl.
      split; [done|]. by exists pr.
  - split; [lia|]. split; [|by intros c Hc; inversion Hc].
    split; [done|]. intros [_ (v' & [= <-] & Hv')]. congruence.
Qed.

Lemma relay_calls_upstream_iff_witness :
  let rt := {| Vercel.env_var := λ _, Some "key";
               Vercel.fetch := λ _, Throw (new_TypeError "fetch failed");
               Vercel.stringify := λ _, "{}" |} in
  let req := {| Vercel.method := "POST"; Vercel.referer := None;
                Vercel.body := Obj [ ("imageBase64", Str "aGk="); ("prompt", Null) ] |} in
  (Vercel.method req = "POST" ∧
   ∃ v, get_prop (Vercel.body req) "imageBase64" = Return v ∧ truthy v = true) ∧
  (Vercel.handler rt req).2 ≠ [] ∧
  Vercel.text <$> (Vercel.handler rt req).2 = [Null].
Proof.
  intros rt req.
  assert (H : Vercel.method req = "POST" ∧
              ∃ v, get_prop (Vercel.body req) "imageBase64" = Return v ∧ truthy v = true).
  { split; [reflexivity|]. by exists (Str "aGk="). }
  split; [exact H|].
  split; [exact (proj2 (proj1 (proj2 (relay_calls_upstream_iff rt req))) H) | reflexivity].
Defined.

(** ** X15: the answers of the relay *)

(** X15.  Every answer of the relay carries the four CORS headers and has
    status 200, 400, 405 or 500; the empty 200 is the answer to OPTIONS
    and to nothing else; 405 is the answer to every method but OPTIONS and
    POST; 400 is the answer to a POST whose body has an [imageBase64] that
    is falsy (missing, [null], empty, [0] or [false]); a POST without a
    body is a 500. *)
Theorem relay_answer_classes (rt : Vercel.runtime) (req : Vercel.request) :
  let ans := (Vercel.handler rt req).1 in
  Vercel.headers ans = Vercel.cors_headers ∧
  (Vercel.status ans = 200 ∨ Vercel.status ans = 400 ∨
   Vercel.status ans = 405 ∨ Vercel.status ans = 500) ∧
  (Vercel.payload ans = Vercel.ended ↔ Vercel.method req = "OPTIONS") ∧
  (Vercel.status ans = 405 ↔ Vercel.method req ≠ "OPTIONS" ∧ Vercel.method req ≠ "POST") ∧
  (Vercel.status ans = 400 ↔
   Vercel.method req = "POST" ∧
   ∃ v, get_prop (Vercel.body req) "imageBase64" = Return v ∧ truthy v = false) ∧
  (Vercel.method req = "POST" →
   Vercel.body req = Undefined ∨ Vercel.body req = Null →
   Vercel.status ans = 500).
Proof.
  unfold Vercel.handler.
  destruct (String.eqb_spec (Vercel.method req) "OPTIONS") as [Hopt|Hopt].
  { simpl. split; [done|]. split; [by left|]. split; [done|]. split.
    - split; [discriminate | by intros [? _]].
    - split; [split; [discriminate | intros [? _]; congruence] | intros ?; congruence]. }
  destruct (String.eqb_spec (Vercel.method req) "POST") as [Hpost|Hpost]; simpl.
  2: { split; [done|]. split; [by auto|]. split; [split; [discriminate | done]|].
       split; [done|]. split; [split; [discriminate | by intros [? _]] | done]. }
  rewrite destructure_eq.
  destruct (get_prop (Vercel.body req) "imageBase64") as [v|e] eqn:Hv.
  2: { simpl. split; [done|]. split; [by auto|]. split; [split; [discriminate | done]|].
       split; [split; [discriminate | by intros [_ ?]]|].
       split; [split; [discriminate | by intros [_ (v & [=] & _)]] | done]. }
  destruct (get_prop (Vercel.body req) "prompt") as [pr|e] eqn:Hpr.
  2: { exfalso. assert (He : ∃ e, get_prop (Vercel.body req) "prompt" = Throw e) by eauto.
       apply get_prop_throws in He.
       assert (Hv' : ∃ e, get_prop (Vercel.body req) "imageBase64" = Throw e)
         by (by apply get_prop_throws).
       destruct Hv' as [e' He']. congruence. }
  assert (Hbody : ¬ (Vercel.body req = Undefined ∨ Vercel.body req = Null)).
  { intros Hb. apply (get_prop_throws _ "imageBase64") in Hb as [e He]. congruence. }
  destruct (truthy v) eqn:Ht; simpl.
  - destruct (_ ← Vercel.fetch rt _; _) as [content|e]; simpl.
    + split; [done|]. split; [by auto|]. split; [split; [discriminate | done]|].
      split; [split; [discriminate | by intros [_ ?]]|].
      split; [|done]. split; [discriminate|]. intros [_ (v' & [= <-] & Hv')]. congruence.
    + split; [done|]. split; [by auto|]. split; [split; [discriminate | done]|].
      split; [split; [discriminate | by intros [_ ?]]|].
      split; [|done]. split; [discriminate|]. intros [_ (v' & [= <-] & Hv')]. congruence.
  - split; [done|]. split; [by auto|]. split; [split; [discriminate | done]|].
    split; [split; [discriminate | by intros [_ ?]]|].
    split; [|done]. split; [intros _|done]. split; [done|]. by exists v.
Qed.

Lemma relay_answer_classes_witness :
  let rt := {| Vercel.env_var := λ _, Some "key";
               Vercel.fetch := λ _, Throw (new_TypeError "fetch failed");
               Vercel.stringify := λ _, "{}" |} in
  let req := {| Vercel.method := "POST"; Vercel.referer := None; Vercel.body := Undefined |} in
  Vercel.method req = "POST" ∧
  (Vercel.body req = Undefined ∨ Vercel.body req = Null) ∧
  Vercel.status (Vercel.handler rt req).1 = 500.
Proof.
  intros rt req.
  assert (Hb : Vercel.body req = Undefined ∨ Vercel.body req = Null) by (by left).
  split; [reflexivity|]. split; [exact Hb|].
  exact (proj2 (proj2 (proj2 (proj2 (proj2 (relay_answer_classes rt req))))) eq_refl Hb).
Defined.

(** ** X16: what the check of the answer's shape changes *)

(** Reading the content with and without the check. *)
Lemma read_checked_unchecked (rt : Vercel.runtime) (r : Vercel.reply) :
  match Vercel.read_checked rt r with
  | Return c => Vercel.read_unchecked rt r = Return c
  | Throw e =>
      match Vercel.read_unchecked rt r with
      | Return c => e = new_Error "Invalid API response format" ∧ c = Undefined
      | Throw _ => True
      end
  end.
Proof.
  unfold Vercel.read_checked, Vercel.read_unchecked. unfold_outcome.
  destruct (Vercel.ok r); simpl.
  2: { by destruct (Vercel.json_ r). }
  destruct (Vercel.json_ r) as [d|e]; [|done].
  destruct (get_prop d "choices") as [ch|e]; [|done].
  destruct (truthy ch) eqn:Hch; simpl.
  2: { destruct ch as [| |[]|n|[|c s]|items|fields]; simpl in *;
         try discriminate Hch; done. }
  destruct (get_index ch 0) as [c0|e]; [|done].
  destruct (truthy c0) eqn:Hc0; simpl.
  2: { destruct c0 as [| |[]|n|[|c s]|items|fields]; simpl in *;
         try discriminate Hc0; done. }
  destruct (get_prop c0 "message") as [m|e]; [|done].
  destruct (truthy m) eqn:Hm; simpl.
  2: { destruct m as [| |[]|n|[|c s]|items|fields]; simpl in *;
         try discriminate Hm; done. }
  by destruct (get_prop m "content").
Qed.

(** X16.  The two variants of the relay agree wherever the checked one
    succeeds: if both get the same upstream reply and the checked relay
    answers 200, the unchecked relay gives the same answer.  Whenever the
    unchecked relay answers 200 and the checked one does not, the checked
    answer is the 500 "Invalid API response format" and the unchecked 200
    carries [data] undefined (an upstream message that is [''], for
    one). *)
Theorem checked_relay_refines_unchecked (rt : Vercel.runtime) (req : Vercel.request) :
  (∀ v pr, Vercel.fetch rt (Vercel.build_request_unchecked rt req v pr)
           = Vercel.fetch rt (Vercel.build_request rt req v pr)) →
  let checked := (Vercel.handler rt req).1 in
  let unchecked := (Vercel.handler_unchecked rt req).1 in
  (Vercel.status checked = 200 → unchecked = checked) ∧
  (Vercel.status unchecked = 200 → Vercel.status checked ≠ 200 →
   checked = Vercel.failure (new_Error "Invalid API response format") ∧
   unchecked = Vercel.respond 200 (Obj [ ("success", Bool true); ("data", Undefined) ])).
Proof.
  intros Hsame. unfold Vercel.handler, Vercel.handler_unchecked.
  destruct (String.eqb (Vercel.method req) "OPTIONS"); [by simpl|].
  destruct (String.eqb (Vercel.method req) "POST"); simpl; [|by split].
  destruct (Vercel.destructure (Vercel.body req)) as [[v pr]|e]; [|by split].
  destruct (truthy v); simpl; [|by split].
  rewrite Hsame. unfold_outcome.
  destruct (Vercel.fetch rt _) as [r|e]; simpl; [|by split].
  pose proof (read_checked_unchecked rt r) as H.
  destruct (Vercel.read_checked rt r) as [c|e]; simpl.
  - rewrite H. simpl. by split.
  - destruct (Vercel.read_unchecked rt r) as [c|e']; simpl; [|by split].
    destruct H as [-> ->]. split; [discriminate|]. by intros _ _.
Qed.

Lemma checked_relay_refines_unchecked_witness :
  let reply_of (m : value) :=
    {| Vercel.ok := true; Vercel.statusText := "OK";
       Vercel.json_ := Return (Obj [ ("choices", Arr [ Obj [ ("message", m) ] ]) ]) |} in
  let rt := {| Vercel.env_var := λ _, Some "key";
               Vercel.fetch := λ _, Return (reply_of (Str ""));
               Vercel.stringify := λ _, "{}" |} in
  let req := {| Vercel.method := "POST"; Vercel.referer := None;
                Vercel.body := Obj [ ("imageBase64", Str "aGk=") ] |} in
  (∀ v pr, Vercel.fetch rt (Vercel.build_request_unchecked rt req v pr)
           = Vercel.fetch rt (Vercel.build_request rt req v pr)) ∧
  Vercel.status (Vercel.handler_unchecked rt req).1 = 200 ∧
  Vercel.status (Vercel.handler rt req).1 ≠ 200 ∧
  (Vercel.handler rt req).1 = Vercel.failure (new_Error "Invalid API response format").
Proof.
  intros reply_of rt req.
  assert (Hsame : ∀ v pr, Vercel.fetch rt (Vercel.build_request_unchecked rt req v pr)
                          = Vercel.fetch rt (Vercel.build_request rt req v pr))
    by (intros; reflexivity).
  assert (Hu : Vercel.status (Vercel.handler_unchecked rt req).1 = 200) by reflexivity.
  assert (Hc : Vercel.status (Vercel.handler rt req).1 ≠ 200) by (by vm_compute).
  split; [exact Hsame|]. split; [exact Hu|]. split; [exact Hc|].
  exact (proj1 (proj2 (checked_relay_refines_unchecked rt req Hsame) Hu Hc)).
Defined.

(** * The page *)

Lemma update_lookup (id : string) (f : Client.UploadedImage → Client.UploadedImage)
    (prev : list Client.UploadedImage) (n : nat) :
  Client.update id f prev !! n
  = (λ img, if String.eqb (Client.id img) id then f img else img) <$> prev !! n.
Proof. unfold Client.update. apply list_lookup_fmap. Qed.

(** Every update [processImage] issues is [update id f] for an [f] that
    keeps the identifier, the file and the preview. *)
Lemma processImage_updates (send : Multer.part → outcome Client.reply)
    (images : list Client.UploadedImage) (id : string)
    (u : list Client.UploadedImage → list Client.UploadedImage) :
  u ∈ Client.processImage send images id →
  ∃ f, u = Client.update id f ∧
       ∀ img, Client.id (f img) = Client.id img ∧ Client.file (f img) = Client.file img ∧
              Client.preview (f img) = Client.preview img.
Proof.
  unfold Client.processImage. intros Hu.
  apply elem_of_cons in Hu as [-> | Hu].
  { exists Client.to_processing. by split. }
  destruct (List.find _ images) as [image|]; [|by inversion Hu].
  apply list_elem_of_singleton in Hu as ->.
  destruct (Client.request send image) as [url|e]; eexists; by split.
Qed.

(** ** X17: what [processImage] may change *)

(** X17.  Whatever the server answers, every state update of
    [processImage id] keeps the length and the order of the list and the
    identifier, file and preview of every image, and leaves every image
    with another identifier exactly as it is. *)
Theorem processImage_frame (send : Multer.part → outcome Client.reply)
    (images prev : list Client.UploadedImage) (id : string)
    (u : list Client.UploadedImage → list Client.UploadedImage) :
  u ∈ Client.processImage send images id →
  length (u prev) = length prev ∧
  ∀ n img, prev !! n = Some img →
    ∃ img', u prev !! n = Some img' ∧
      Client.id img' = Client.id img ∧ Client.file img' = Client.file img ∧
      Client.preview img' = Client.preview img ∧
      (Client.id img ≠ id → img' = img).
Proof.
  intros Hu. destruct (processImage_updates send images id u Hu) as (f & -> & Hf).
  split; [unfold Client.update; by rewrite length_map|].
  intros n img Hn. rewrite update_lookup, Hn. simpl.
  destruct (String.eqb_spec (Client.id img) id) as [Heq|Hne].
  - exists (f img). destruct (Hf img) as (? & ? & ?). by repeat split.
  - exists img. by repeat split.
Qed.

Lemma processImage_frame_witness :
  let a := {| Client.id := "a"; Client.file := Sample.scan; Client.preview := "data:a";
              Client.processed := Undefined; Client.status := Client.uploaded;
              Client.error := None |} in
  let b := {| Client.id := "b"; Client.file := Sample.notes; Client.preview := "data:b";
              Client.processed := Undefined; Client.status := Client.uploaded;
              Client.error := None |} in
  let send := λ _ : Multer.part, Throw (new_TypeError "Failed to fetch") in
  Client.update "a" Client.to_processing ∈ Client.processImage send [a; b] "a" ∧
  Client.update "a" Client.to_processing [a; b] !! 1%nat = Some b.
Proof.
  intros a b send.
  assert (Hu : Client.update "a" Client.to_processing ∈ Client.processImage send [a; b] "a")
    by apply list_elem_of_here.
  split; [exact Hu|].
  destruct (proj2 (processImage_frame send [a; b] [a; b] "a" _ Hu) 1%nat b eq_refl)
    as (img' & Hl & _ & _ & _ & Hsame).
  rewrite Hl. f_equal. apply Hsame. by vm_compute.
Defined.

(** How the state ends after the updates of [processImage]. *)
Lemma processImage_final (send : Multer.part → outcome Client.reply)
    (images prev : list Client.UploadedImage) (id : string) :
  let final := Client.run (Client.processImage send images id) prev in
  match List.find (λ img, String.eqb (Client.id img) id) images with
  | Some image =>
      ∀ img, img ∈ final → Client.id img = id →
        match Client.request send image with
        | Return url => Client.status img = Client.completed ∧ Client.processed img = url
        | Throw e => Client.status img = Client.errored ∧ Client.error img = Some (message e)
        end
  | None =>
      Client.processImage send images id = [Client.update id Client.to_processing] ∧
      ∀ img, img ∈ final → Client.id img = id → Client.status img = Client.processing
  end.
Proof.
  intros final. subst final. unfold Client.processImage.
  destruct (List.find _ images) as [image|]; simpl.
  - intros img Himg Hid.
    destruct (Client.request send image) as [url|e];
      unfold Client.update in Himg;
      apply list_elem_of_fmap in Himg as (img1 & -> & Himg1);
      apply list_elem_of_fmap in Himg1 as (img0 & -> & _);
      destruct (String.eqb_spec (Client.id img0) id) as [Heq|Hne]; simpl in *;
      rewrite ?Heq, ?String.eqb_refl in *; simpl in *; try done;
      destruct (String.eqb_spec (Client.id img0) id); done.
  - split; [reflexivity|]. intros img Himg Hid.
    unfold Client.update in Himg.
    apply list_elem_of_fmap in Himg as (img0 & -> & _).
    destruct (String.eqb_spec (Client.id img0) id) as [Heq|Hne]; simpl in *; done.
Qed.

(** ** X18: how [processImage] ends *)

(** X18.  If the image is in the rendered list, every image with that
    identifier ends as completed or as failed with the message of the
    error -- never as processing; if it is not, no request is sent and
    every image with that identifier is left as processing. *)
Theorem processImage_settles (send : Multer.part → outcome Client.reply)
    (images prev : list Client.UploadedImage) (id : string) :
  let final := Client.run (Client.processImage send images id) prev in
  match List.find (λ img, String.eqb (Client.id img) id) images with
  | Some image =>
      ∀ img, img ∈ final → Client.id img = id →
        match Client.request send image with
        | Return url => Client.status img = Client.completed ∧ Client.processed img = url
        | Throw e => Client.status img = Client.errored ∧ Client.error img = Some (message e)
        end
  | None =>
      Client.processImage send images id = [Client.update id Client.to_processing] ∧
      ∀ img, img ∈ final → Client.id img = id → Client.status img = Client.processing
  end.
Proof. apply processImage_final. Qed.

Lemma processImage_settles_witness :
  let a := {| Client.id := "a"; Client.file := Sample.scan; Client.preview := "data:a";
              Client.processed := Undefined; Client.status := Client.uploaded;
              Client.error := None |} in
  let send := λ _ : Multer.part, Throw (new_TypeError "Failed to fetch") in
  a ∈ [a] ∧
  ∀ img, img ∈ Client.run (Client.processImage send [a] "a") [a] → Client.id img = "a" →
    Client.status img = Client.errored ∧ Client.error img = Some "Failed to fetch".
Proof.
  intros a send. split; [apply list_elem_of_here|].
  exact (processImage_settles send [a] [a] "a").
Defined.

(** ** X19: the page against the server *)

(** The answers of the repair endpoint to a form with a file. *)
Lemma answer_shape (env : environment) (w : world) (p : Multer.part) :
  ∃ res, (post_repair_image env (Some p) w).1 = Some res ∧
    ((status res = 200 ∧
      ∃ a, body res = json_body
             (success_body (intake_file env w p)
                {| filename := artifact_name env w;
                   path := (processedDir, artifact_name env w); analysis := a |})) ∨
     status res = 400 ∨ status res = 500).
Proof.
  destruct (part_cases p) as [Hacc | [[Hname Hmime] | [[Hst Hsize] | Hnone]]].
  - rewrite (post_repair_image_accepted env w p Hacc). cbv zeta.
    destruct (Multer.data p) as [i|raw]; [|eexists; by eauto].
    destruct (callOpenRouterAPI env _ _).1 as [a|e]; [|eexists; by eauto].
    destruct (write_fault env) as [we|]; [eexists; by eauto|].
    destruct (unlink_fault env (unlink_calls w)) as [ue|]; [eexists; by eauto|].
    eexists. split; [reflexivity|]. left. split; [reflexivity|]. by exists a.
  - rewrite not_image_refused by done. eexists; by eauto.
  - rewrite too_large_answer by done. eexists; by eauto.
  - rewrite unnamed_answer by done. eexists; by eauto.
Qed.

(** What [processImage] makes of the answers of the server. *)
Lemma request_against_server (env : environment) (reason : Z → string) (w : world)
    (image : Client.UploadedImage) :
  ∃ s, status_of (post_repair_image env (Some (Client.file image)) w).1 = Some s ∧
    Client.request (send_form env reason w) image
    = if decide (s = 200)
      then Return (Str ("/api/processed/" ++ artifact_name env w))
      else Throw (new_Error ("API error: " ++ reason s)).
Proof.
  unfold Client.request, send_form. unfold_outcome.
  destruct (answer_shape env w (Client.file image)) as (res & -> & Hres).
  exists (status res). split; [reflexivity|].
  destruct Hres as [[Hs [a Hbody]] | [Hs | Hs]];
    unfold browser_reply; simpl; rewrite ?Hbody, !Hs; simpl.
  - by destruct a.
  - reflexivity.
  - reflexivity.
Qed.

(** X19.  The page against the server: when the image is in the rendered
    list and its file is sent to the repair endpoint, a 200 of the server
    leaves the image completed, with the URL of the artifact as its
    processed image and as the target of the download; any other answer
    leaves it failed with [API error: ] followed by the reason phrase of
    the status, so the message in the JSON body of the server is never
    shown. *)
Theorem page_against_server (env : environment) (reason : Z → string) (w : world)
    (images prev : list Client.UploadedImage) (image : Client.UploadedImage) :
  List.find (λ img, String.eqb (Client.id img) (Client.id image)) images = Some image →
  let res := (post_repair_image env (Some (Client.file image)) w).1 in
  let final := Client.run (Client.processImage (send_form env reason w) images
                             (Client.id image)) prev in
  ∃ s, status_of res = Some s ∧
    ∀ img, img ∈ final → Client.id img = Client.id image →
      if decide (s = 200) then
        Client.status img = Client.completed ∧
        Client.processed img = Str ("/api/processed/" ++ artifact_name env w) ∧
        Client.download_href img = Str ("/api/processed/" ++ artifact_name env w)
      else
        Client.status img = Client.errored ∧
        Client.error img = Some ("API error: " ++ reason s).
Proof.
  intros Hfind res final.
  destruct (request_against_server env reason w image) as (s & Hs & Hreq).
  exists s. split; [exact Hs|]. intros img Himg Hid.
  pose proof (processImage_final (send_form env reason w) images prev (Client.id image))
    as Hfinal.
  rewrite Hfind in Hfinal. specialize (Hfinal img Himg Hid).
  rewrite Hreq in Hfinal.
  destruct (decide (s = 200)); [|exact Hfinal].
  destruct Hfinal as [Hst Hpr]. split; [exact Hst|]. split; [exact Hpr|].
  unfold Client.download_href. by rewrite Hpr.
Qed.

Lemma page_against_server_witness :
  let a := {| Client.id := "a"; Client.file := Sample.scan; Client.preview := "data:a";
              Client.processed := Undefined; Client.status := Client.uploaded;
              Client.error := None |} in
  let reason := λ s : Z, if s =? 500 then "Internal Server Error" else "" in
  List.find (λ img, String.eqb (Client.id img) (Client.id a)) [a] = Some a ∧
  ∀ img,
    img ∈ Client.run (Client.processImage (send_form Sample.garbled reason Sample.start) [a]
                        (Client.id a)) [a] →
    Client.id img = Client.id a →
    Client.status img = Client.errored ∧
    Client.error img = Some "API error: Internal Server Error".
Proof.
  intros a reason.
  assert (Hfind : List.find (λ img, String.eqb (Client.id img) (Client.id a)) [a] = Some a)
    by reflexivity.
  split; [exact Hfind|].
  destruct (page_against_server Sample.garbled reason Sample.start [a] [a] a Hfind)
    as (s & Hs & H).
  assert (Hs500 : s = 500) by (vm_compute in Hs; congruence).
  subst s. exact H.
Defined.
